(** * VIPeR data manager: split generation, persistence and assembly

    A shallow embedding of [data_manager/viper.py] (class [VIPeR]).

    The Python state that matters is made explicit: the files the class
    looks at (the two camera listings and [splits.json]) and the state of
    numpy's global random generator.  Exceptions are values of [exn] carried
    by the [result] monad. *)

From Stdlib Require Import Ascii.
From stdpp Require Import base numbers list strings sorting gmap pretty.

Local Open Scope Z_scope.
Local Open Scope nat_scope.

(** ** Exceptions and the result monad *)

(** The Python exceptions the modelled code can raise.  [AssertionError]
    carries the optional message of the [assert] statement. *)
Inductive exn : Type :=
| AssertionError (msg : option string)
| ValueError (msg : string)
| IndexError
| KeyError (key : string)
| TypeError
| IOError.

Inductive result (A : Type) : Type :=
| Ok (a : A)
| Raise (e : exn).
Arguments Ok {A} a.
Arguments Raise {A} e.

#[global] Instance result_ret : MRet result := λ A a, Ok a.
#[global] Instance result_bind : MBind result := λ A B f m,
  match m with
  | Ok a => f a
  | Raise e => Raise e
  end.

(** [assert cond, msg] *)
Definition py_assert (cond : bool) (msg : option string) : result unit :=
  if cond then Ok () else Raise (AssertionError msg).

(** ** JSON documents and the Python values [json.load] returns

    [json.load] maps arrays to lists, objects to dicts, integers to ints and
    strings to strs, so one tree type serves for the stored document and
    for the loaded value.  An object is kept as the list of its items, in
    order, with pairwise distinct keys.  Floats are left out: the module
    never writes one. *)
#[warnings="-register-all"]
Inductive json : Type :=
| JNull
| JBool (b : bool)
| JNum (n : Z)
| JStr (s : string)
| JArr (items : list json)
| JObj (items : list (string * json)).

(** A Python tuple of loaded values. *)
Definition pytuple : Type := list json.

(** [len(v)] *)
Definition py_len (v : json) : result Z :=
  match v with
  | JArr items => Ok (Z.of_nat (length items))
  | JObj items => Ok (Z.of_nat (length items))
  | JStr s => Ok (Z.of_nat (String.length s))
  | _ => Raise TypeError
  end.

(** [l[i]] on a Python list with an integer index: a negative index counts
    from the end, anything outside [-len, len) raises [IndexError]. *)
Definition list_getitem {A : Type} (l : list A) (i : Z) : result A :=
  let n := Z.of_nat (length l) in
  let j := if bool_decide (i < 0)%Z then (i + n)%Z else i in
  if bool_decide (0 ≤ j < n)%Z then
    match l !! Z.to_nat j with
    | Some x => Ok x
    | None => Raise IndexError
    end
  else Raise IndexError.

Definition chars (s : string) : list json :=
  (λ c, JStr (String c EmptyString)) <$> String.list_ascii_of_string s.

(** [v[i]] with an integer [i] *)
Definition py_getitem_int (v : json) (i : Z) : result json :=
  match v with
  | JArr items => list_getitem items i
  | JStr s => list_getitem (chars s) i
  | JObj _ => Raise (KeyError (pretty i))
  | _ => Raise TypeError
  end.

Fixpoint assoc (key : string) (items : list (string * json)) : option json :=
  match items with
  | [] => None
  | (k, v) :: rest => if decide (k = key) then Some v else assoc key rest
  end.

(** [v[key]] with a string [key] *)
Definition py_getitem_str (v : json) (key : string) : result json :=
  match v with
  | JObj items =>
      match assoc key items with
      | Some x => Ok x
      | None => Raise (KeyError key)
      end
  | _ => Raise TypeError
  end.

(** The items [for item in v] and [tuple(v)] go through. *)
Definition py_iter (v : json) : result (list json) :=
  match v with
  | JArr items => Ok items
  | JStr s => Ok (chars s)
  | JObj items => Ok ((λ kv, JStr kv.1) <$> items)
  | _ => Raise TypeError
  end.

(** [tuple(item)] *)
Definition py_tuple (item : json) : result pytuple := py_iter item.

Definition as_int (v : json) : option Z :=
  match v with
  | JNum n => Some n
  | JBool b => Some (if b then 1%Z else 0%Z)
  | _ => None
  end.

(** [a + b] on loaded values *)
Definition py_add (a b : json) : result json :=
  match as_int a, as_int b with
  | Some x, Some y => Ok (JNum (x + y))
  | _, _ =>
      match a, b with
      | JStr s, JStr t => Ok (JStr (s +:+ t))
      | JArr l, JArr k => Ok (JArr (l ++ k))
      | _, _ => Raise TypeError
      end
  end.

(** ["{:5d}".format(v)]: only an int (or a bool) takes the [d] format. *)
Definition format_d (v : json) : result string :=
  match v with
  | JNum n => Ok (pretty n)
  | JBool b => Ok (if b then "1" else "0")
  | JStr _ => Raise (ValueError "Unknown format code 'd' for object of type 'str'")
  | _ => Raise TypeError
  end.

(** [[f(x) for x in l]] where [f] may raise *)
Fixpoint comprehension {A B : Type} (f : A → result B) (l : list A) : result (list B) :=
  match l with
  | [] => Ok []
  | x :: rest => y ← f x; ys ← comprehension f rest; Ok (y :: ys)
  end.

(** [for i, x in enumerate(l, start): s = body(s, i, x)] *)
Fixpoint for_enumerate {A St : Type} (body : St → nat → A → result St)
    (start : nat) (l : list A) (s : St) : result St :=
  match l with
  | [] => Ok s
  | x :: rest => s' ← body s start x; for_enumerate body (S start) rest s'
  end.

(** [for _ in range(n): s = body(s)] *)
Fixpoint for_range {St : Type} (body : St → result St) (n : nat) (s : St) : result St :=
  match n with
  | O => Ok s
  | S n' => s' ← body s; for_range body n' s'
  end.

(** ** Records, splits and their JSON form *)

(** An image record [(img_path, pid, camid)]. *)
Abbreviation ImageRecord := (string * nat * nat)%type.

(** The dict built at lines 154-158. *)
Record Split : Type := mkSplit {
  train : list ImageRecord;
  query : list ImageRecord;
  gallery : list ImageRecord;
  num_train_pids : nat;
  num_query_pids : nat;
  num_gallery_pids : nat
}.

(** The record as a Python tuple of values. *)
Definition record_tuple (r : ImageRecord) : pytuple :=
  [JStr r.1.1; JNum (Z.of_nat r.1.2); JNum (Z.of_nat r.2)].

(** What [json.dump] writes for a value, by its Python type: a tuple and a
    list both become an array, a dict an object. *)
Class ToJSON (A : Type) := to_json : A → json.
#[global] Hint Mode ToJSON ! : typeclass_instances.

#[global] Instance int_to_json : ToJSON nat := λ n, JNum (Z.of_nat n).
#[global] Instance str_to_json : ToJSON string := JStr.
#[global] Instance tuple3_to_json `{ToJSON A, ToJSON B, ToJSON C} : ToJSON (A * B * C) :=
  λ t, JArr [to_json t.1.1; to_json t.1.2; to_json t.2].
#[global] Instance list_to_json `{ToJSON A} : ToJSON (list A) :=
  λ l, JArr (to_json <$> l).
#[global] Instance split_to_json : ToJSON Split := λ split,
  JObj [("train", to_json (train split));
        ("query", to_json (query split));
        ("gallery", to_json (gallery split));
        ("num_train_pids", to_json (num_train_pids split));
        ("num_query_pids", to_json (num_query_pids split));
        ("num_gallery_pids", to_json (num_gallery_pids split))].

(** ** The files and the random generator *)

(** What is stored at [split_path]: a JSON document, or bytes that
    [json.load] rejects. *)
Inductive file : Type :=
| Garbled
| Document (doc : json).

(** The part of the machine the class reads and writes, once
    [_download_data] and [_check_before_run] (lines 43-44) have returned:
    the two [glob] listings, the file at [split_path] ([None] when
    [osp.exists] is false) and the state of [np.random]. *)
Record world (G : Type) : Type := mkWorld {
  cam_a_bmps : list string;
  cam_b_bmps : list string;
  split_file : option file;
  np_random : G
}.
Arguments mkWorld {G} _ _ _ _.
Arguments cam_a_bmps {G} _.
Arguments cam_b_bmps {G} _.
Arguments split_file {G} _.
Arguments np_random {G} _.

(** Modelled from the spec: [utils.iotools.write_json], which is not under
    src/.  It serializes a value to the path as one JSON document. *)
Definition write_json {G A : Type} `{ToJSON A} (obj : A) (w : world G) : world G :=
  mkWorld (cam_a_bmps w) (cam_b_bmps w) (Some (Document (to_json obj))) (np_random w).

(** Modelled from the spec: [utils.iotools.read_json], which is not under
    src/.  It deserializes the document stored at the path. *)
Definition read_json {G : Type} (w : world G) : result json :=
  match split_file w with
  | None => Raise IOError
  | Some Garbled => Raise (ValueError "No JSON object could be decoded")
  | Some (Document doc) => Ok doc
  end.

(** [sorted(l)] on a list of strs: ascending in the order of [str]. *)
Definition sorted (l : list string) : list string :=
  merge_sort (λ s t : string, String.leb s t) l.

(** [np.arange(n)] *)
Definition arange (n : nat) : list nat := seq 0 n.

(** [l[idx]] for an index that is never negative *)
Definition getitem {A : Type} (l : list A) (idx : nat) : result A :=
  match l !! idx with
  | Some x => Ok x
  | None => Raise IndexError
  end.

(** ** The split builder and the split store *)

Section Builder.
Context {G : Type}.

(** [np.random.shuffle]: permutes the array in place and advances the
    generator. *)
Variable shuffle : G → list nat → list nat * G.

(** The body of the loops at lines 141-145 and 148-152. *)
Definition append_pair (cam_a_imgs cam_b_imgs : list string)
    (records : list ImageRecord) (pid idx : nat) : result (list ImageRecord) :=
  cam_a_img ← getitem cam_a_imgs idx;
  cam_b_img ← getitem cam_b_imgs idx;
  Ok ((records ++ [(cam_a_img, pid, 0)]) ++ [(cam_b_img, pid, 1)]).

(** One trial, lines 134-159: the state is the list [splits] and the
    generator. *)
Definition trial (cam_a_imgs cam_b_imgs : list string) (num_pids num_train_pids : nat)
    (st : list Split * G) : result (list Split * G) :=
  let '(order, g) := shuffle st.2 (arange num_pids) in
  let train_idxs := take num_train_pids order in
  let test_idxs := drop num_train_pids order in
  _ ← py_assert
        (bool_decide (list_to_set train_idxs ∩ list_to_set test_idxs = (∅ : gset nat)))
        (Some "Error: train and test overlap");
  train ← for_enumerate (append_pair cam_a_imgs cam_b_imgs) 0 train_idxs [];
  test ← for_enumerate (append_pair cam_a_imgs cam_b_imgs) 0 test_idxs [];
  let split := {| train := train; query := test; gallery := test;
                  num_train_pids := num_train_pids;
                  num_query_pids := num_pids - num_train_pids;
                  num_gallery_pids := num_pids - num_train_pids |} in
  Ok (st.1 ++ [split], g).

(** Lines 127-159: the split builder, from the two sorted listings. *)
Definition build_splits (cam_a_imgs cam_b_imgs : list string) (g : G)
    : result (list Split * G) :=
  _ ← py_assert (bool_decide (length cam_a_imgs = length cam_b_imgs)) None;
  let num_pids := length cam_a_imgs in
  let num_train_pids := num_pids `div` 2 in
  for_range (trial cam_a_imgs cam_b_imgs num_pids num_train_pids) 10 ([], g).

(** [_prepare_split], lines 121-165. *)
Definition _prepare_split (w : world G) : result (world G) :=
  match split_file w with
  | None =>
      let cam_a_imgs := sorted (cam_a_bmps w) in
      let cam_b_imgs := sorted (cam_b_bmps w) in
      '(splits, g) ← build_splits cam_a_imgs cam_b_imgs (np_random w);
      Ok (write_json splits (mkWorld (cam_a_bmps w) (cam_b_bmps w) (split_file w) g))
  | Some _ => Ok w
  end.

(** The generator at the start of trial [k] (trials count from 0), and the
    permutation that trial draws at lines 134-135. *)
Definition rng_at (num_pids k : nat) (g : G) : G :=
  Nat.iter k (λ g, (shuffle g (arange num_pids)).2) g.

Definition order_at (num_pids k : nat) (g : G) : list nat :=
  (shuffle (rng_at num_pids k g) (arange num_pids)).1.

(** ** Dataset assembly *)

(** The attributes [__init__] sets on the object.  The counts are whatever
    the document holds under their keys. *)
Record VIPeR : Type := mkVIPeR {
  self_train : list pytuple;
  self_query : list pytuple;
  self_gallery : list pytuple;
  self_num_train_pids : json;
  self_num_query_pids : json;
  self_num_gallery_pids : json
}.

(** The message of line 49. *)
Definition exceeds_range (split_id len_splits : Z) : string :=
  "split_id exceeds range, received " +:+ pretty split_id
  +:+ ", but expected between 0 and " +:+ pretty (len_splits - 1)%Z.

(** [[tuple(item) for item in v]] *)
Definition tuples (v : json) : result (list pytuple) :=
  items ← py_iter v; comprehension py_tuple items.

(** The table printed at lines 71-82; the text goes to stdout, only the
    exceptions of the [d] format are kept. *)
Definition print_statistics (num_train_pids num_query_pids num_gallery_pids
    num_total_pids : json) : result unit :=
  _ ← format_d num_train_pids;
  _ ← format_d num_query_pids;
  _ ← format_d num_gallery_pids;
  _ ← format_d num_total_pids;
  Ok ().

(** Lines 48-90 of [__init__], with [use_lmdb] false: from the loaded
    [splits] to the attributes of the dataset. *)
Definition assemble (splits : json) (split_id : Z) (verbose : bool) : result VIPeR :=
  len_splits ← py_len splits;
  if bool_decide (len_splits ≤ split_id)%Z then
    Raise (ValueError (exceeds_range split_id len_splits))
  else
    split ← py_getitem_int splits split_id;
    train ← py_getitem_str split "train";
    query ← py_getitem_str split "query";
    gallery ← py_getitem_str split "gallery";
    train ← tuples train;
    query ← tuples query;
    gallery ← tuples gallery;
    num_train_pids ← py_getitem_str split "num_train_pids";
    num_query_pids ← py_getitem_str split "num_query_pids";
    num_gallery_pids ← py_getitem_str split "num_gallery_pids";
    num_total_pids ← py_add num_train_pids num_query_pids;
    _ ← (if verbose
         then print_statistics num_train_pids num_query_pids num_gallery_pids num_total_pids
         else Ok ());
    Ok {| self_train := train; self_query := query; self_gallery := gallery;
          self_num_train_pids := num_train_pids;
          self_num_query_pids := num_query_pids;
          self_num_gallery_pids := num_gallery_pids |}.

(** Lines 46-47: the split store, load or create. *)
Definition load_or_create (w : world G) : result (json * world G) :=
  w ← _prepare_split w;
  splits ← read_json w;
  Ok (splits, w).

(** [VIPeR.__init__] from line 46 on. *)
Definition __init__ (split_id : Z) (verbose : bool) (w : world G)
    : result (VIPeR * world G) :=
  '(splits, w) ← load_or_create w;
  self ← assemble splits split_id verbose;
  Ok (self, w).

End Builder.

(** [m] does not raise the range error of line 49. *)
Definition no_range_error {A : Type} (m : result A) : Prop :=
  ∀ e a b, m = Raise e → e ≠ ValueError (exceeds_range a b).

(** ** A generator to run the model with

    Fisher-Yates, from the last position down, over a linear congruential
    generator. *)

Definition lcg (g : N) : N := ((1103515245 * g + 12345) `mod` 2147483648)%N.

(** A draw from [0, max]. *)
Definition random_interval (g : N) (max : nat) : nat * N :=
  let g' := lcg g in (N.to_nat (g' `mod` N.of_nat (S max))%N, g').

(** [x[i], x[j] = x[j], x[i]] *)
Definition swap (x : list nat) (i j : nat) : list nat :=
  match x !! i, x !! j with
  | Some a, Some b => <[j := a]> (<[i := b]> x)
  | _, _ => x
  end.

Fixpoint fisher_yates (i : nat) (x : list nat) (g : N) : list nat * N :=
  match i with
  | O => (x, g)
  | S i' => let '(j, g') := random_interval g i in fisher_yates i' (swap x i j) g'
  end.

Definition lcg_shuffle (g : N) (x : list nat) : list nat * N :=
  fisher_yates (length x - 1) x g.

(** ** Sample inputs *)

Definition sample_cam_a : list string :=
  ["cam_a/000_45.bmp"; "cam_a/001_45.bmp"; "cam_a/002_45.bmp";
   "cam_a/003_0.bmp"; "cam_a/004_45.bmp"].

Definition sample_cam_b : list string :=
  ["cam_b/000_45.bmp"; "cam_b/001_90.bmp"; "cam_b/002_90.bmp";
   "cam_b/003_90.bmp"; "cam_b/004_90.bmp"].

(** A fresh dataset directory: no split file yet. *)
Definition sample_world : world N := mkWorld sample_cam_a sample_cam_b None 42%N.

(** The ten splits the builder makes of the sample. *)
Definition sample_splits : list Split :=
  match build_splits lcg_shuffle sample_cam_a sample_cam_b 42%N with
  | Ok (splits, _) => splits
  | Raise _ => []
  end.

(** The sample after its first [_prepare_split]: the splits are stored. *)
Definition sample_world_stored : world N :=
  match _prepare_split lcg_shuffle sample_world with
  | Ok w => w
  | Raise _ => sample_world
  end.

(** ** Paths and the pre-flight steps *)

Definition starts_with_slash (s : string) : bool :=
  match s with
  | String c _ => bool_decide (c = "/"%char)
  | EmptyString => false
  end.

Fixpoint ends_with_slash (s : string) : bool :=
  match s with
  | EmptyString => false
  | String c EmptyString => bool_decide (c = "/"%char)
  | String _ rest => ends_with_slash rest
  end.

(** One step of [posixpath.join]: an absolute component replaces what came
    before, otherwise it is appended, after a slash unless the path is
    empty or already ends with one. *)
Definition join2 (path b : string) : string :=
  if starts_with_slash b then b
  else if bool_decide (path = EmptyString) || ends_with_slash path then path +:+ b
  else path +:+ "/" +:+ b.

(** [osp.join(a, *p)] *)
Definition osp_join (a : string) (p : list string) : string := foldl join2 a p.

Fixpoint has_slash (p : string) : bool :=
  match p with
  | EmptyString => false
  | String c rest => bool_decide (c = "/"%char) || has_slash rest
  end.

(** [osp.basename(p)]: what follows the last slash. *)
Fixpoint basename (p : string) : string :=
  match p with
  | EmptyString => EmptyString
  | String c rest =>
      if has_slash rest then basename rest
      else if bool_decide (c = "/"%char) then rest
      else p
  end.

(** Lines 37-41. *)
Definition dataset_dir (root : string) : string := osp_join root ["viper"].
Definition dataset_url : string := "http://users.soe.ucsc.edu/~manduchi/VIPeR.v1.0.zip".
Definition cam_a_path (root : string) : string := osp_join (dataset_dir root) ["VIPeR"; "cam_a"].
Definition cam_b_path (root : string) : string := osp_join (dataset_dir root) ["VIPeR"; "cam_b"].
Definition split_path (root : string) : string := osp_join (dataset_dir root) ["splits.json"].

(** What the constructor as a whole can raise: the [RuntimeError] of
    [_check_before_run], an exception of [exn], or whatever a download
    helper raises. *)
Inductive failure : Type :=
| RuntimeError (msg : string)
| Exn (e : exn)
| DownloadFailed (what : string).

Inductive outcome (A : Type) : Type :=
| Done (a : A)
| Fail (f : failure).
Arguments Done {A} a.
Arguments Fail {A} f.

#[global] Instance outcome_ret : MRet outcome := λ A a, Done a.
#[global] Instance outcome_bind : MBind outcome := λ A B f m,
  match m with
  | Done a => f a
  | Fail e => Fail e
  end.

(** The machine as the whole constructor sees it: what [osp.exists] answers
    for the three directories, and the files and generator of [world]. *)
Record machine (G : Type) : Type := mkMachine {
  dataset_dir_exists : bool;
  cam_a_path_exists : bool;
  cam_b_path_exists : bool;
  files : world G
}.
Arguments mkMachine {G} _ _ _ _.
Arguments dataset_dir_exists {G} _.
Arguments cam_a_path_exists {G} _.
Arguments cam_b_path_exists {G} _.
Arguments files {G} _.

(** The message of lines 115, 117 and 119. *)
Definition not_available (path : string) : string :=
  "'" +:+ path +:+ "' is not available".

(** [_check_before_run], lines 112-119. *)
Definition _check_before_run {G : Type} (root : string) (m : machine G) : outcome unit :=
  if negb (dataset_dir_exists m) then
    Fail (RuntimeError (not_available (dataset_dir root)))
  else if negb (cam_a_path_exists m) then
    Fail (RuntimeError (not_available (cam_a_path root)))
  else if negb (cam_b_path_exists m) then
    Fail (RuntimeError (not_available (cam_b_path root)))
  else Done ().

Section Constructor.
Context {G : Type}.
Variable shuffle : G → list nat → list nat * G.

(** The helpers of the download, taken as they are called at lines 101,
    105 and 108-109: [mkdir_if_missing(directory)],
    [urllib.urlretrieve(url, filename)] and
    [ZipFile(file).extractall(path)]. *)
Variable mkdir_if_missing : string → machine G → outcome (machine G).
Variable urlretrieve : string → string → machine G → outcome (machine G).
Variable extractall : string → string → machine G → outcome (machine G).

(** [_download_data], lines 95-110. *)
Definition _download_data (root : string) (m : machine G) : outcome (machine G) :=
  if dataset_dir_exists m then Done m
  else
    m ← mkdir_if_missing (dataset_dir root) m;
    let fpath := osp_join (dataset_dir root) [basename dataset_url] in
    m ← urlretrieve dataset_url fpath m;
    extractall fpath (dataset_dir root) m.

(** [VIPeR(root, split_id, verbose)], lines 36-90: the pre-flight steps,
    then [__init__] from line 46 on. *)
Definition new_VIPeR (root : string) (split_id : Z) (verbose : bool) (m : machine G)
    : outcome (VIPeR * machine G) :=
  m ← _download_data root m;
  _ ← _check_before_run root m;
  match __init__ shuffle split_id verbose (files m) with
  | Ok (self, w) =>
      Done (self, mkMachine (dataset_dir_exists m) (cam_a_path_exists m)
                    (cam_b_path_exists m) w)
  | Raise e => Fail (Exn e)
  end.

End Constructor.

(** ** More sample inputs *)

(** The sample directory, unpacked. *)
Definition sample_machine : machine N := mkMachine true true true sample_world.

(** A dataset directory that exists but holds no camera folder. *)
Definition sample_incomplete : machine N := mkMachine true false false sample_world.

(** The same files, listed by [glob] in the opposite order. *)
Definition sample_world_reversed : world N :=
  mkWorld (reverse sample_cam_a) (reverse sample_cam_b) None 42%N.

(** Download helpers of a machine without network. *)
Definition no_mkdir (directory : string) (m : machine N) : outcome (machine N) :=
  Fail (DownloadFailed "mkdir").
Definition no_network (url filename : string) (m : machine N) : outcome (machine N) :=
  Fail (DownloadFailed "urlretrieve").
Definition no_zip (file path : string) (m : machine N) : outcome (machine N) :=
  Fail (DownloadFailed "extractall").

(** A split edited by hand: a record of two items, one of none, and counts
    that match nothing. *)
Definition sample_edited_split : list (string * json) :=
  [("train", JArr [JArr [JStr "x.bmp"; JNum 7]]);
   ("query", JArr []);
   ("gallery", JArr [JArr []]);
   ("num_train_pids", JNum 99);
   ("num_query_pids", JNum (-1));
   ("num_gallery_pids", JNum 0)].


(** A shuffle that went wrong: it fills the array with index 0. *)
Definition stuck_shuffle (g : N) (x : list nat) : list nat * N :=
  (replicate (length x) 0, g).

(** * Properties *)

(** ** The result monad *)

Lemma bind_Ok {A B : Type} (f : A → result B) (a : A) : Ok a ≫= f = f a.
Proof. reflexivity. Qed.

Lemma bind_Raise {A B : Type} (f : A → result B) (e : exn) : Raise e ≫= f = Raise e.
Proof. reflexivity. Qed.

Lemma getitem_Some {A : Type} (l : list A) (idx : nat) (x : A) :
  l !! idx = Some x → getitem l idx = Ok x.
Proof. intros H. unfold getitem. by rewrite H. Qed.

(** ** The labelling loop *)

Lemma append_pair_Ok (cam_a_imgs cam_b_imgs : list string)
    (records : list ImageRecord) (pid idx : nat) (a b : string) :
  cam_a_imgs !! idx = Some a → cam_b_imgs !! idx = Some b →
  append_pair cam_a_imgs cam_b_imgs records pid idx
  = Ok ((records ++ [(a, pid, 0)]) ++ [(b, pid, 1)]).
Proof.
  intros Ha Hb. unfold append_pair.
  by rewrite (getitem_Some _ _ _ Ha), (getitem_Some _ _ _ Hb).
Qed.

(** The loop of lines 141-145 appends, for the index at position [k] of
    [idxs], the camera-A record at position [2 * k] and the camera-B record
    right after it, both labelled [start + k]. *)
Lemma for_enumerate_append_pair (cam_a_imgs cam_b_imgs : list string) (idxs : list nat) :
  ∀ (start : nat) (acc : list ImageRecord),
  (∀ idx, idx ∈ idxs → idx < length cam_a_imgs ∧ idx < length cam_b_imgs) →
  ∃ recs : list ImageRecord,
    for_enumerate (append_pair cam_a_imgs cam_b_imgs) start idxs acc = Ok (acc ++ recs)
    ∧ length recs = 2 * length idxs
    ∧ ∀ k idx, idxs !! k = Some idx →
        ∃ a b, cam_a_imgs !! idx = Some a ∧ cam_b_imgs !! idx = Some b
          ∧ recs !! (2 * k) = Some (a, start + k, 0)
          ∧ recs !! (2 * k + 1) = Some (b, start + k, 1).
Proof.
  induction idxs as [|idx idxs IH]; intros start acc Hin.
  - exists []. rewrite app_nil_r. split_and!; [done..|].
    intros k idx Hk. by rewrite lookup_nil in Hk.
  - destruct (Hin idx) as [Ha Hb]; [by left|].
    apply lookup_lt_is_Some in Ha as [a Ha].
    apply lookup_lt_is_Some in Hb as [b Hb].
    destruct (IH (S start) ((acc ++ [(a, start, 0)]) ++ [(b, start, 1)]))
      as (recs & Heq & Hlen & Hrec).
    { intros i Hi. apply Hin. by right. }
    exists ((a, start, 0) :: (b, start, 1) :: recs). split_and!.
    + cbn [for_enumerate].
      rewrite (append_pair_Ok _ _ _ _ _ _ _ Ha Hb), bind_Ok, Heq.
      f_equal. by rewrite <- !app_assoc.
    + cbn [length]. lia.
    + intros [|k] idx' Hk; cbn in Hk.
      * injection Hk as <-. exists a, b. by rewrite Nat.add_0_r.
      * destruct (Hrec k idx' Hk) as (a' & b' & Ha' & Hb' & H1 & H2).
        exists a', b'. split_and!; [done..| |].
        -- replace (2 * S k) with (S (S (2 * k))) by lia.
           replace (start + S k) with (S start + k) by lia. exact H1.
        -- replace (2 * S k + 1) with (S (S (2 * k + 1))) by lia.
           replace (start + S k) with (S start + k) by lia. exact H2.
Qed.

(** ** The split builder *)

Section Correctness.
Context {G : Type} (shuffle : G → list nat → list nat * G).

(** What is assumed of [np.random.shuffle]: it permutes its argument. *)
Hypothesis shuffle_perm : ∀ (g : G) (x : list nat), (shuffle g x).1 ≡ₚ x.

Lemma order_at_perm (num_pids k : nat) (g : G) :
  order_at shuffle num_pids k g ≡ₚ arange num_pids.
Proof. apply shuffle_perm. Qed.

Lemma order_at_NoDup (num_pids k : nat) (g : G) :
  NoDup (order_at shuffle num_pids k g).
Proof. rewrite order_at_perm. apply NoDup_seq. Qed.

Lemma elem_of_order_at (num_pids k : nat) (g : G) (idx : nat) :
  idx ∈ order_at shuffle num_pids k g ↔ idx < num_pids.
Proof. rewrite order_at_perm. unfold arange. rewrite elem_of_seq. lia. Qed.

Lemma rng_at_S (num_pids k : nat) (g : G) :
  rng_at shuffle num_pids (S k) g
  = rng_at shuffle num_pids k (shuffle g (arange num_pids)).2.
Proof.
  unfold rng_at.
  exact (Nat.iter_succ_r k (λ g, (shuffle g (arange num_pids)).2) g).
Qed.

Lemma order_at_S (num_pids k : nat) (g : G) :
  order_at shuffle num_pids (S k) g
  = order_at shuffle num_pids k (shuffle g (arange num_pids)).2.
Proof. unfold order_at. by rewrite rng_at_S. Qed.

(** The two halves of a duplicate-free list share no element, so the
    assertion of line 138 holds. *)
Lemma take_drop_disjoint (order : list nat) (n : nat) :
  NoDup order →
  list_to_set (take n order) ∩ list_to_set (drop n order) = (∅ : gset nat).
Proof.
  intros Hnd. rewrite <- (take_drop n order) in Hnd.
  apply NoDup_app in Hnd as (_ & Hdisj & _).
  apply disjoint_intersection_L. intros x.
  rewrite !elem_of_list_to_set. apply Hdisj.
Qed.

Lemma take_drop_union (order : list nat) (n : nat) :
  list_to_set (take n order) ∪ list_to_set (drop n order)
  = (list_to_set order : gset nat).
Proof. by rewrite <- list_to_set_app_L, take_drop. Qed.

Variables cam_a_imgs cam_b_imgs : list string.
Hypothesis same_length : length cam_a_imgs = length cam_b_imgs.

Let num_pids : nat := length cam_a_imgs.

Lemma idxs_in_range (k : nat) (g : G) (idxs : list nat) :
  idxs ⊆ order_at shuffle num_pids k g →
  ∀ idx, idx ∈ idxs → idx < length cam_a_imgs ∧ idx < length cam_b_imgs.
Proof.
  intros Hsub idx Hin. apply Hsub, elem_of_order_at in Hin.
  rewrite <- same_length. by split.
Qed.

(** One trial succeeds; its split holds what the two labelling loops
    return on the two halves of the permutation it drew. *)
Lemma trial_Ok (splits : list Split) (g : G) :
  let order := (shuffle g (arange num_pids)).1 in
  ∃ tr te,
    for_enumerate (append_pair cam_a_imgs cam_b_imgs) 0
      (take (num_pids `div` 2) order) [] = Ok tr
    ∧ for_enumerate (append_pair cam_a_imgs cam_b_imgs) 0
        (drop (num_pids `div` 2) order) [] = Ok te
    ∧ trial shuffle cam_a_imgs cam_b_imgs num_pids (num_pids `div` 2) (splits, g)
      = Ok (splits ++ [mkSplit tr te te (num_pids `div` 2)
                         (num_pids - num_pids `div` 2) (num_pids - num_pids `div` 2)],
            (shuffle g (arange num_pids)).2).
Proof.
  intros order.
  assert (Hsub : ∀ idxs, idxs ⊆ order →
    ∀ idx, idx ∈ idxs → idx < length cam_a_imgs ∧ idx < length cam_b_imgs).
  { intros idxs. apply (idxs_in_range 0 g). }
  destruct (for_enumerate_append_pair cam_a_imgs cam_b_imgs
              (take (num_pids `div` 2) order) 0 []) as (tr & Htr & _).
  { apply Hsub, subseteq_take. }
  destruct (for_enumerate_append_pair cam_a_imgs cam_b_imgs
              (drop (num_pids `div` 2) order) 0 []) as (te & Hte & _).
  { apply Hsub, subseteq_drop. }
  exists tr, te. split_and!; [done..|].
  unfold trial. cbn [fst snd]. subst order.
  destruct (shuffle g (arange num_pids)) as [order g'] eqn:Hsh. cbn [fst snd] in *.
  rewrite bool_decide_eq_true_2.
  - cbn [py_assert]. by rewrite bind_Ok, Htr, bind_Ok, Hte, bind_Ok.
  - apply take_drop_disjoint.
    pose proof (shuffle_perm g (arange num_pids)) as Hp. rewrite Hsh in Hp.
    cbn in Hp. rewrite Hp. apply NoDup_seq.
Qed.

(** The loop of line 133 appends one split per trial; trial [k] works on
    [order_at num_pids k g]. *)
Lemma for_range_trial (m : nat) :
  ∀ (splits : list Split) (g : G),
  ∃ new : list Split,
    for_range (trial shuffle cam_a_imgs cam_b_imgs num_pids (num_pids `div` 2)) m (splits, g)
    = Ok (splits ++ new, rng_at shuffle num_pids m g)
    ∧ length new = m
    ∧ ∀ k split, new !! k = Some split →
        ∃ tr te,
          for_enumerate (append_pair cam_a_imgs cam_b_imgs) 0
            (take (num_pids `div` 2) (order_at shuffle num_pids k g)) [] = Ok tr
          ∧ for_enumerate (append_pair cam_a_imgs cam_b_imgs) 0
              (drop (num_pids `div` 2) (order_at shuffle num_pids k g)) [] = Ok te
          ∧ split = mkSplit tr te te (num_pids `div` 2)
                      (num_pids - num_pids `div` 2) (num_pids - num_pids `div` 2).
Proof.
  induction m as [|m IH]; intros splits g.
  - exists []. rewrite app_nil_r. split_and!; [done..|].
    intros k split Hk. by rewrite lookup_nil in Hk.
  - destruct (trial_Ok splits g) as (tr & te & Htr & Hte & Htrial).
    destruct (IH (splits ++ [mkSplit tr te te (num_pids `div` 2)
                               (num_pids - num_pids `div` 2) (num_pids - num_pids `div` 2)])
                 (shuffle g (arange num_pids)).2) as (new & Hrun & Hlen & Hnew).
    eexists (_ :: new). split_and!.
    + cbn [for_range]. rewrite Htrial, bind_Ok, Hrun, rng_at_S.
      by rewrite <- app_assoc.
    + cbn [length]. by rewrite Hlen.
    + intros [|k] split Hk; cbn in Hk.
      * injection Hk as <-. by exists tr, te.
      * rewrite order_at_S. by apply Hnew.
Qed.

(** The builder returns, with ten splits, each as [trial_Ok] describes. *)
Lemma build_splits_Ok (g : G) :
  ∃ splits : list Split,
    build_splits shuffle cam_a_imgs cam_b_imgs g = Ok (splits, rng_at shuffle num_pids 10 g)
    ∧ length splits = 10
    ∧ ∀ k split, splits !! k = Some split →
        ∃ tr te,
          for_enumerate (append_pair cam_a_imgs cam_b_imgs) 0
            (take (num_pids `div` 2) (order_at shuffle num_pids k g)) [] = Ok tr
          ∧ for_enumerate (append_pair cam_a_imgs cam_b_imgs) 0
              (drop (num_pids `div` 2) (order_at shuffle num_pids k g)) [] = Ok te
          ∧ split = mkSplit tr te te (num_pids `div` 2)
                      (num_pids - num_pids `div` 2) (num_pids - num_pids `div` 2).
Proof.
  destruct (for_range_trial 10 [] g) as (new & Hrun & Hlen & Hnew).
  exists new. split_and!; [|done..].
  unfold build_splits. rewrite bool_decide_eq_true_2 by exact same_length.
  cbn [py_assert]. by rewrite bind_Ok.
Qed.

(** The records of one half, position by position. *)
Lemma labelled_half (k : nat) (g : G) (idxs : list nat) (recs : list ImageRecord) :
  idxs ⊆ order_at shuffle num_pids k g →
  for_enumerate (append_pair cam_a_imgs cam_b_imgs) 0 idxs [] = Ok recs →
  length recs = 2 * length idxs
  ∧ ∀ pid idx, idxs !! pid = Some idx →
      ∃ a b, cam_a_imgs !! idx = Some a ∧ cam_b_imgs !! idx = Some b
        ∧ recs !! (2 * pid) = Some (a, pid, 0)
        ∧ recs !! (2 * pid + 1) = Some (b, pid, 1).
Proof.
  intros Hsub Hrun.
  destruct (for_enumerate_append_pair cam_a_imgs cam_b_imgs idxs 0 [])
    as (recs' & Hrun' & Hlen & Hrec).
  { by apply (idxs_in_range k g). }
  rewrite Hrun in Hrun'. injection Hrun' as ->. by split.
Qed.

Lemma order_at_set (k : nat) (g : G) :
  list_to_set (order_at shuffle num_pids k g) = (set_seq 0 num_pids : gset nat).
Proof.
  apply set_eq. intros x.
  rewrite elem_of_list_to_set, elem_of_set_seq, elem_of_order_at. lia.
Qed.

Lemma halves_NoDup (n k : nat) (g : G) :
  NoDup (take n (order_at shuffle num_pids k g))
  ∧ NoDup (drop n (order_at shuffle num_pids k g))
  ∧ ∀ idx, idx ∈ take n (order_at shuffle num_pids k g)
           → idx ∉ drop n (order_at shuffle num_pids k g).
Proof.
  pose proof (order_at_NoDup num_pids k g) as Hnd.
  rewrite <- (take_drop n) in Hnd.
  apply NoDup_app in Hnd as (? & ? & ?). done.
Qed.

(** C1. Every split the builder produces from two listings of the same
    length partitions the raw indices: the index sets of train and test are
    disjoint, their union is {0, ..., num_pids - 1}, and every raw index
    stands at exactly one position of exactly one of the two index lists,
    where it yields exactly two records, the camera-A record and the
    camera-B record; train and test hold no other record.  The builder
    produces ten such splits. *)
Theorem build_splits_partition (g : G) :
  ∃ splits g',
    build_splits shuffle cam_a_imgs cam_b_imgs g = Ok (splits, g')
    ∧ length splits = 10
    ∧ ∀ k split, splits !! k = Some split →
        let order := order_at shuffle (length cam_a_imgs) k g in
        let train_idxs := take (length cam_a_imgs `div` 2) order in
        let test_idxs := drop (length cam_a_imgs `div` 2) order in
        list_to_set train_idxs ∩ list_to_set test_idxs = (∅ : gset nat)
        ∧ list_to_set train_idxs ∪ list_to_set test_idxs
          = (set_seq 0 (length cam_a_imgs) : gset nat)
        ∧ length (train split) = 2 * length train_idxs
        ∧ length (query split) = 2 * length test_idxs
        ∧ ∀ idx, idx < length cam_a_imgs →
            ∃ pid a b,
              cam_a_imgs !! idx = Some a ∧ cam_b_imgs !! idx = Some b
              ∧ ((train_idxs !! pid = Some idx
                  ∧ (∀ pid', train_idxs !! pid' = Some idx → pid' = pid)
                  ∧ (idx ∉ test_idxs)
                  ∧ train split !! (2 * pid) = Some (a, pid, 0)
                  ∧ train split !! (2 * pid + 1) = Some (b, pid, 1))
                 ∨ (test_idxs !! pid = Some idx
                    ∧ (∀ pid', test_idxs !! pid' = Some idx → pid' = pid)
                    ∧ (idx ∉ train_idxs)
                    ∧ query split !! (2 * pid) = Some (a, pid, 0)
                    ∧ query split !! (2 * pid + 1) = Some (b, pid, 1))).
Proof.
  destruct (build_splits_Ok g) as (splits & Hrun & Hten & Hall).
  exists splits, (rng_at shuffle num_pids 10 g). split_and!; [done..|].
  intros k split Hk order train_idxs test_idxs.
  destruct (Hall k split Hk) as (tr & te & Htr & Hte & ->). cbn [train query].
  destruct (halves_NoDup (num_pids `div` 2) k g) as (Hnd1 & Hnd2 & Hdisj).
  destruct (labelled_half k g _ _ (subseteq_take _ _) Htr) as [Hlen1 Hrec1].
  destruct (labelled_half k g _ _ (subseteq_drop _ _) Hte) as [Hlen2 Hrec2].
  split_and!.
  - apply take_drop_disjoint, order_at_NoDup.
  - unfold train_idxs, test_idxs, order. rewrite take_drop_union. apply order_at_set.
  - exact Hlen1.
  - exact Hlen2.
  - intros idx Hidx.
    assert (Hin : idx ∈ train_idxs ++ test_idxs).
    { unfold train_idxs, test_idxs. rewrite take_drop. by apply elem_of_order_at. }
    apply elem_of_app in Hin as [Hin|Hin].
    + pose proof Hin as Hin'. apply list_elem_of_lookup in Hin' as [pid Hpid].
      destruct (Hrec1 pid idx Hpid) as (a & b & Ha & Hb & H1 & H2).
      exists pid, a, b. split_and!; [done..|]. left. split_and!; [done| |by apply Hdisj|done..].
      intros pid' Hpid'. by apply (NoDup_lookup _ _ _ _ Hnd1 Hpid' Hpid).
    + pose proof Hin as Hin'. apply list_elem_of_lookup in Hin' as [pid Hpid].
      destruct (Hrec2 pid idx Hpid) as (a & b & Ha & Hb & H1 & H2).
      exists pid, a, b. split_and!; [done..|]. right. split_and!; [done| | |done..].
      * intros pid' Hpid'. by apply (NoDup_lookup _ _ _ _ Hnd2 Hpid' Hpid).
      * intros Hin1. by apply (Hdisj idx Hin1).
Qed.

(** C2. Every split built from listings of length num_pids records
    num_train_pids = num_pids // 2, the same in all splits of the set, and
    num_query_pids = num_gallery_pids = num_pids - num_train_pids; there
    are ten splits in the set. *)
Theorem build_splits_counts (g : G) :
  ∃ splits g',
    build_splits shuffle cam_a_imgs cam_b_imgs g = Ok (splits, g')
    ∧ length splits = 10
    ∧ ∀ k split, splits !! k = Some split →
        num_train_pids split = length cam_a_imgs `div` 2
        ∧ num_query_pids split = length cam_a_imgs - num_train_pids split
        ∧ num_gallery_pids split = length cam_a_imgs - num_train_pids split.
Proof.
  destruct (build_splits_Ok g) as (splits & Hrun & Hten & Hall).
  exists splits, (rng_at shuffle num_pids 10 g). split_and!; [done..|].
  intros k split Hk.
  by destruct (Hall k split Hk) as (tr & te & _ & _ & ->).
Qed.

(** C3. The builder runs ten trials, each giving one split.  In every
    trial the train sequence follows the train indices in the
    order of the permutation: the index at position [pid] gets the new label
    [pid] and yields the record (cam_a_imgs[idx], pid, 0) immediately
    followed by (cam_b_imgs[idx], pid, 1), and nothing else is emitted; the
    test records (query) are built the same way over the test indices. *)
Theorem build_splits_records (g : G) :
  ∃ splits g',
    build_splits shuffle cam_a_imgs cam_b_imgs g = Ok (splits, g')
    ∧ length splits = 10
    ∧ ∀ k, k < 10 →
        ∃ split,
          splits !! k = Some split
          ∧ let order := order_at shuffle (length cam_a_imgs) k g in
            let train_idxs := take (length cam_a_imgs `div` 2) order in
            let test_idxs := drop (length cam_a_imgs `div` 2) order in
            (length (train split) = 2 * length train_idxs
             ∧ ∀ pid idx, train_idxs !! pid = Some idx →
                 ∃ a b, cam_a_imgs !! idx = Some a ∧ cam_b_imgs !! idx = Some b
                   ∧ train split !! (2 * pid) = Some (a, pid, 0)
                   ∧ train split !! (2 * pid + 1) = Some (b, pid, 1))
            ∧ (length (query split) = 2 * length test_idxs
               ∧ ∀ pid idx, test_idxs !! pid = Some idx →
                   ∃ a b, cam_a_imgs !! idx = Some a ∧ cam_b_imgs !! idx = Some b
                     ∧ query split !! (2 * pid) = Some (a, pid, 0)
                     ∧ query split !! (2 * pid + 1) = Some (b, pid, 1)).
Proof.
  destruct (build_splits_Ok g) as (splits & Hrun & Hten & Hall).
  exists splits, (rng_at shuffle num_pids 10 g). split_and!; [done..|].
  intros k Hk.
  destruct (lookup_lt_is_Some_2 splits k) as [split Hsplit]; [lia|].
  exists split. split; [done|]. intros order train_idxs test_idxs.
  destruct (Hall k split Hsplit) as (tr & te & Htr & Hte & ->). cbn [train query].
  split.
  - apply (labelled_half k g); [apply subseteq_take|done].
  - apply (labelled_half k g); [apply subseteq_drop|done].
Qed.

(** C9. Within every split the builder produces, the query sequence and the
    gallery sequence are the same, in content and in order; the builder
    produces ten splits. *)
Theorem build_splits_query_gallery (g : G) :
  ∃ splits g',
    build_splits shuffle cam_a_imgs cam_b_imgs g = Ok (splits, g')
    ∧ length splits = 10
    ∧ ∀ k split, splits !! k = Some split → query split = gallery split.
Proof.
  destruct (build_splits_Ok g) as (splits & Hrun & Hten & Hall).
  exists splits, (rng_at shuffle num_pids 10 g). split_and!; [done..|].
  intros k split Hk.
  by destruct (Hall k split Hk) as (tr & te & _ & _ & ->).
Qed.

End Correctness.

(** ** Generators *)

Lemma swap_perm (x : list nat) (i j : nat) : swap x i j ≡ₚ x.
Proof.
  unfold swap. destruct (x !! i) as [a|] eqn:Hi; [|done].
  destruct (x !! j) as [b|] eqn:Hj; [|done].
  by apply Permutation_insert_swap.
Qed.

Lemma fisher_yates_perm (i : nat) : ∀ (x : list nat) (g : N), (fisher_yates i x g).1 ≡ₚ x.
Proof.
  induction i as [|i IH]; intros x g; [done|].
  cbn [fisher_yates]. destruct (random_interval g (S i)) as [j g'].
  rewrite IH. apply swap_perm.
Qed.

Lemma lcg_shuffle_perm (g : N) (x : list nat) : (lcg_shuffle g x).1 ≡ₚ x.
Proof. apply fisher_yates_perm. Qed.

(** ** Lists and loaded values *)

Lemma list_getitem_nonneg {A : Type} (l : list A) (j : nat) (x : A) :
  l !! j = Some x → list_getitem l (Z.of_nat j) = Ok x.
Proof.
  intros Hj. pose proof (lookup_lt_Some _ _ _ Hj) as Hlt. unfold list_getitem.
  rewrite (bool_decide_eq_false_2 (Z.of_nat j < 0)%Z) by lia.
  rewrite bool_decide_eq_true_2 by lia.
  by rewrite Nat2Z.id, Hj.
Qed.

(** A negative index counts from the end of the list. *)
Lemma list_getitem_neg {A : Type} (l : list A) (j : nat) (x : A) :
  l !! j = Some x → list_getitem l (Z.of_nat j - Z.of_nat (length l)) = Ok x.
Proof.
  intros Hj. pose proof (lookup_lt_Some _ _ _ Hj) as Hlt. unfold list_getitem.
  rewrite (bool_decide_eq_true_2 (Z.of_nat j - Z.of_nat (length l) < 0)%Z) by lia.
  rewrite bool_decide_eq_true_2 by lia.
  replace (Z.of_nat j - Z.of_nat (length l) + Z.of_nat (length l))%Z
    with (Z.of_nat j) by lia.
  by rewrite Nat2Z.id, Hj.
Qed.

Lemma list_getitem_below {A : Type} (l : list A) (i : Z) :
  (i < - Z.of_nat (length l))%Z → list_getitem l i = Raise IndexError.
Proof.
  intros Hi. unfold list_getitem.
  rewrite (bool_decide_eq_true_2 (i < 0)%Z) by lia.
  by rewrite bool_decide_eq_false_2 by lia.
Qed.

(** Reading back the array of a list of records and turning each item into
    a tuple gives the records again, as tuples of three values. *)
Lemma tuples_to_json (l : list ImageRecord) :
  tuples (to_json l) = Ok (record_tuple <$> l).
Proof.
  unfold tuples. cbn [to_json list_to_json py_iter]. rewrite bind_Ok.
  induction l as [|r l IH]; [done|].
  cbn [fmap list_fmap comprehension]. rewrite IH. done.
Qed.

Lemma getitem_str_train (split : Split) :
  py_getitem_str (to_json split) "train" = Ok (to_json (train split)).
Proof. reflexivity. Qed.

Lemma getitem_str_query (split : Split) :
  py_getitem_str (to_json split) "query" = Ok (to_json (query split)).
Proof. reflexivity. Qed.

Lemma getitem_str_gallery (split : Split) :
  py_getitem_str (to_json split) "gallery" = Ok (to_json (gallery split)).
Proof. reflexivity. Qed.

Lemma getitem_str_num_train_pids (split : Split) :
  py_getitem_str (to_json split) "num_train_pids"
  = Ok (JNum (Z.of_nat (num_train_pids split))).
Proof. reflexivity. Qed.

Lemma getitem_str_num_query_pids (split : Split) :
  py_getitem_str (to_json split) "num_query_pids"
  = Ok (JNum (Z.of_nat (num_query_pids split))).
Proof. reflexivity. Qed.

Lemma getitem_str_num_gallery_pids (split : Split) :
  py_getitem_str (to_json split) "num_gallery_pids"
  = Ok (JNum (Z.of_nat (num_gallery_pids split))).
Proof. reflexivity. Qed.

(** ** Dataset assembly *)

(** On the document of a list of splits, an index that denotes position
    [j], from the front or from the end, selects the split at [j] and
    exposes its six fields. *)
Lemma assemble_to_json (splits : list Split) (split_id : Z) (j : nat)
    (split : Split) (verbose : bool) :
  splits !! j = Some split →
  split_id = Z.of_nat j ∨ split_id = (Z.of_nat j - Z.of_nat (length splits))%Z →
  assemble (to_json splits) split_id verbose
  = Ok {| self_train := record_tuple <$> train split;
          self_query := record_tuple <$> query split;
          self_gallery := record_tuple <$> gallery split;
          self_num_train_pids := JNum (Z.of_nat (num_train_pids split));
          self_num_query_pids := JNum (Z.of_nat (num_query_pids split));
          self_num_gallery_pids := JNum (Z.of_nat (num_gallery_pids split)) |}.
Proof.
  intros Hj Hid. pose proof (lookup_lt_Some _ _ _ Hj) as Hlt.
  assert (Hget : py_getitem_int (to_json splits) split_id = Ok (to_json split)).
  { cbn [to_json list_to_json py_getitem_int].
    assert (Hj' : (to_json <$> splits) !! j = Some (to_json split))
      by (by rewrite list_lookup_fmap, Hj).
    destruct Hid as [-> | ->]; [by apply list_getitem_nonneg|].
    rewrite <- (length_fmap to_json splits). by apply list_getitem_neg. }
  unfold assemble.
  assert (Hlen : py_len (to_json splits) = Ok (Z.of_nat (length splits))).
  { cbn [to_json list_to_json py_len]. by rewrite length_fmap. }
  rewrite Hlen, bind_Ok.
  rewrite bool_decide_eq_false_2 by (destruct Hid; lia).
  rewrite Hget, bind_Ok.
  rewrite getitem_str_train, bind_Ok, getitem_str_query, bind_Ok,
    getitem_str_gallery, bind_Ok.
  rewrite !tuples_to_json, !bind_Ok.
  rewrite getitem_str_num_train_pids, bind_Ok, getitem_str_num_query_pids, bind_Ok,
    getitem_str_num_gallery_pids, bind_Ok.
  cbn [py_add as_int]. rewrite bind_Ok.
  by destruct verbose.
Qed.

Lemma record_tuple_length (l : list ImageRecord) :
  Forall (λ t : pytuple, length t = 3) (record_tuple <$> l).
Proof. apply Forall_fmap, Forall_forall. by intros. Qed.

(** Distinct records give distinct tuples, so equal tuple lists come from
    equal record lists. *)
Lemma record_tuple_inj (r r' : ImageRecord) :
  record_tuple r = record_tuple r' → r = r'.
Proof.
  destruct r as [[p pid] cam], r' as [[p' pid'] cam']. unfold record_tuple. cbn.
  intros H. injection H as -> Hpid Hcam.
  apply Nat2Z.inj in Hpid, Hcam. by subst.
Qed.

(** *** When the range error of line 49 is raised *)

Lemma no_range_error_Ok {A : Type} (x : A) : no_range_error (Ok x).
Proof. intros e a b H. discriminate. Qed.

Lemma no_range_error_bind {A B : Type} (m : result A) (f : A → result B) :
  no_range_error m → (∀ x, no_range_error (f x)) → no_range_error (m ≫= f).
Proof.
  intros Hm Hf. destruct m as [x|e'].
  - rewrite bind_Ok. apply Hf.
  - rewrite bind_Raise. intros e a b [= <-]. by apply (Hm e' a b).
Qed.

Lemma no_range_error_list_getitem {A : Type} (l : list A) (i : Z) :
  no_range_error (list_getitem l i).
Proof.
  intros e lo hi H. unfold list_getitem in H.
  case_bool_decide; [destruct (l !! _)|]; simplify_eq; discriminate.
Qed.

Lemma no_range_error_getitem_int (v : json) (i : Z) :
  no_range_error (py_getitem_int v i).
Proof.
  destruct v; cbn [py_getitem_int];
    try apply no_range_error_list_getitem;
    intros e lo hi H; simplify_eq; discriminate.
Qed.

Lemma no_range_error_getitem_str (v : json) (key : string) :
  no_range_error (py_getitem_str v key).
Proof.
  intros e lo hi H. destruct v; cbn in H; try (simplify_eq; discriminate).
  destruct (assoc key items); simplify_eq; discriminate.
Qed.

Lemma no_range_error_iter (v : json) : no_range_error (py_iter v).
Proof. intros e lo hi H. destruct v; cbn in H; simplify_eq; discriminate. Qed.

Lemma no_range_error_tuples (v : json) : no_range_error (tuples v).
Proof.
  apply no_range_error_bind; [apply no_range_error_iter|].
  intros items. induction items as [|item items IH]; [apply no_range_error_Ok|].
  cbn [comprehension]. apply no_range_error_bind; [apply no_range_error_iter|].
  intros t. apply no_range_error_bind; [exact IH|]. intros ts. apply no_range_error_Ok.
Qed.

Lemma no_range_error_add (x y : json) : no_range_error (py_add x y).
Proof.
  intros e lo hi H. unfold py_add in H.
  destruct x, y; cbn in H; simplify_eq; discriminate.
Qed.

(** The message of the [d] format starts with another letter. *)
Lemma no_range_error_format_d (v : json) : no_range_error (format_d v).
Proof.
  intros e lo hi H. destruct v; cbn in H; simplify_eq; discriminate.
Qed.

(** X17. The guard of line 48 is the only source of the range error: on a list
    of [n] entries it is raised exactly when [split_id >= n]; no negative
    [split_id] raises it. *)
Lemma assemble_range_error (items : list json) (split_id : Z) (verbose : bool) :
  assemble (JArr items) split_id verbose
  = Raise (ValueError (exceeds_range split_id (Z.of_nat (length items))))
  ↔ (Z.of_nat (length items) ≤ split_id)%Z.
Proof.
  unfold assemble. cbn [py_len]. rewrite bind_Ok. split.
  - intros H. case_bool_decide as Hge; [done|]. exfalso.
    match type of H with ?m = _ => assert (Hsafe : no_range_error m) end.
    { repeat (apply no_range_error_bind;
              [first [ apply no_range_error_getitem_int
                     | apply no_range_error_getitem_str
                     | apply no_range_error_tuples
                     | apply no_range_error_add ] | intros ?]).
      apply no_range_error_bind; [|intros; apply no_range_error_Ok].
      destruct verbose; [|apply no_range_error_Ok].
      unfold print_statistics.
      repeat (apply no_range_error_bind; [apply no_range_error_format_d | intros ?]).
      apply no_range_error_Ok. }
    exact (Hsafe _ _ _ H eq_refl).
  - intros Hge. by rewrite bool_decide_eq_true_2.
Qed.

(** X18. Below [-n] the guard lets the index through and the list indexing of
    line 50 raises [IndexError]. *)
Lemma assemble_below_range (items : list json) (split_id : Z) (verbose : bool) :
  (split_id < - Z.of_nat (length items))%Z →
  assemble (JArr items) split_id verbose = Raise IndexError.
Proof.
  intros Hlt. unfold assemble. cbn [py_len]. rewrite bind_Ok.
  rewrite bool_decide_eq_false_2 by lia.
  cbn [py_getitem_int]. by rewrite list_getitem_below.
Qed.

(** C6. Round trip through the split store: reading back what was written
    for any list of splits gives a document of as many splits, and
    assembling any of them yields its three record sequences, in order, each
    record reconstructed as a tuple of exactly three values (path, pid,
    camid), and its three counts. *)
Theorem split_store_roundtrip {G : Type} (splits : list Split) (w : world G) :
  ∃ doc,
    read_json (write_json splits w) = Ok doc
    ∧ py_len doc = Ok (Z.of_nat (length splits))
    ∧ ∀ k split verbose, splits !! k = Some split →
        ∃ self,
          assemble doc (Z.of_nat k) verbose = Ok self
          ∧ self_train self = record_tuple <$> train split
          ∧ self_query self = record_tuple <$> query split
          ∧ self_gallery self = record_tuple <$> gallery split
          ∧ self_num_train_pids self = JNum (Z.of_nat (num_train_pids split))
          ∧ self_num_query_pids self = JNum (Z.of_nat (num_query_pids split))
          ∧ self_num_gallery_pids self = JNum (Z.of_nat (num_gallery_pids split))
          ∧ Forall (λ t : pytuple, length t = 3)
              (self_train self ++ self_query self ++ self_gallery self).
Proof.
  exists (to_json splits). split_and!.
  - reflexivity.
  - cbn [to_json list_to_json py_len]. by rewrite length_fmap.
  - intros k split verbose Hk. eexists. split.
    + apply (assemble_to_json splits _ k split verbose Hk). by left.
    + cbn. split_and!; [done..|].
      rewrite !Forall_app. split_and!; apply record_tuple_length.
Qed.

(** C10. On a loaded set of ten splits a [split_id] from -10 to -1 passes
    the bounds check: the split at position 10 + split_id is selected and
    its train, query, gallery and counts become the dataset's. *)
Theorem assemble_negative_split_id (splits : list Split) (split_id : Z) (verbose : bool) :
  length splits = 10 →
  (-10 ≤ split_id ≤ -1)%Z →
  ∃ split,
    splits !! Z.to_nat (10 + split_id) = Some split
    ∧ assemble (to_json splits) split_id verbose
      = Ok {| self_train := record_tuple <$> train split;
              self_query := record_tuple <$> query split;
              self_gallery := record_tuple <$> gallery split;
              self_num_train_pids := JNum (Z.of_nat (num_train_pids split));
              self_num_query_pids := JNum (Z.of_nat (num_query_pids split));
              self_num_gallery_pids := JNum (Z.of_nat (num_gallery_pids split)) |}.
Proof.
  intros Hlen Hid.
  destruct (lookup_lt_is_Some_2 splits (Z.to_nat (10 + split_id))) as [split Hsplit];
    [lia|].
  exists split. split; [done|].
  apply (assemble_to_json splits split_id _ split verbose Hsplit).
  right. lia.
Qed.

(** C4. On the ten sample splits: index 10 raises the range error, whose
    message names the range 0 to 9; index -1 is outside that range and yet
    raises nothing, it selects the split at position 9; index -11 raises
    [IndexError], not the range error. *)
Theorem assemble_sample_split_ids :
  py_len (to_json sample_splits) = Ok 10%Z
  ∧ assemble (to_json sample_splits) 10 true
    = Raise (ValueError "split_id exceeds range, received 10, but expected between 0 and 9")
  ∧ (∃ self, assemble (to_json sample_splits) (-1) true = Ok self
             ∧ assemble (to_json sample_splits) 9 true = Ok self)
  ∧ assemble (to_json sample_splits) (-11) true = Raise IndexError.
Proof.
  split_and!.
  - by vm_compute.
  - by vm_compute.
  - eexists. split; by vm_compute.
  - by vm_compute.
Qed.

(** ** The split store *)

Lemma length_sorted (l : list string) : length (sorted l) = length l.
Proof. unfold sorted. by rewrite merge_sort_Permutation. Qed.

(** C5. When a split file with a document exists, load-or-create returns
    that document and leaves the files and the generator as they were: the
    builder does not run.  Hence a second call, after any call that
    returned, returns the same splits again, whatever the shuffle would
    draw this time. *)
Theorem load_or_create_cached {G : Type} (shuffle : G → list nat → list nat * G)
    (w : world G) :
  (∀ doc, split_file w = Some (Document doc) → load_or_create shuffle w = Ok (doc, w))
  ∧ (∀ splits w1, load_or_create shuffle w = Ok (splits, w1) →
       ∀ shuffle' : G → list nat → list nat * G,
         load_or_create shuffle' w1 = Ok (splits, w1)).
Proof.
  assert (Hhit : ∀ (sh : G → list nat → list nat * G) (w0 : world G) doc,
    split_file w0 = Some (Document doc) → load_or_create sh w0 = Ok (doc, w0)).
  { intros sh w0 doc Hdoc. unfold load_or_create, _prepare_split, read_json.
    by rewrite Hdoc, bind_Ok, Hdoc. }
  split; [by apply Hhit|].
  intros splits w1 Hload shuffle'. apply Hhit.
  unfold load_or_create, _prepare_split in Hload.
  destruct (split_file w) as [[|doc]|] eqn:Hfile.
  - rewrite bind_Ok in Hload. unfold read_json in Hload. by rewrite Hfile in Hload.
  - rewrite bind_Ok in Hload. unfold read_json in Hload. rewrite Hfile in Hload.
    cbn in Hload. by simplify_eq.
  - destruct (build_splits shuffle _ _ _) as [[sp g]|e]; [|done].
    cbn in Hload. by simplify_eq.
Qed.

(** The sample, twice.  The first call builds and stores the splits; by
    then the generator has moved on and the builder would make other splits,
    yet the second call returns the stored ones. *)
Example load_or_create_sample_twice :
  load_or_create lcg_shuffle sample_world = Ok (to_json sample_splits, sample_world_stored)
  ∧ (∃ splits2 g2,
       build_splits lcg_shuffle (sorted sample_cam_a) (sorted sample_cam_b)
         (np_random sample_world_stored) = Ok (splits2, g2)
       ∧ splits2 ≠ sample_splits)
  ∧ load_or_create lcg_shuffle sample_world_stored
    = Ok (to_json sample_splits, sample_world_stored).
Proof.
  split_and!.
  - by vm_compute.
  - exists (match build_splits lcg_shuffle (sorted sample_cam_a) (sorted sample_cam_b)
                    (np_random sample_world_stored) with
            | Ok (splits2, _) => splits2
            | Raise _ => []
            end),
           (match build_splits lcg_shuffle (sorted sample_cam_a) (sorted sample_cam_b)
                    (np_random sample_world_stored) with
            | Ok (_, g2) => g2
            | Raise _ => 0%N
            end).
    split; [by vm_compute|]. vm_compute. discriminate.
  - by vm_compute.
Qed.

Section Store.
Context {G : Type} (shuffle : G → list nat → list nat * G).
Hypothesis shuffle_perm : ∀ (g : G) (x : list nat), (shuffle g x).1 ≡ₚ x.

(** C8. The builder fails on the length assertion whenever the camera-A
    and camera-B listings differ in length, and returns its splits
    otherwise. *)
Theorem build_splits_length_check (cam_a_imgs cam_b_imgs : list string) (g : G) :
  (length cam_a_imgs ≠ length cam_b_imgs →
     build_splits shuffle cam_a_imgs cam_b_imgs g = Raise (AssertionError None))
  ∧ (length cam_a_imgs = length cam_b_imgs →
       ∃ splits g', build_splits shuffle cam_a_imgs cam_b_imgs g = Ok (splits, g')).
Proof.
  split.
  - intros Hne. unfold build_splits. by rewrite bool_decide_eq_false_2.
  - intros Heq.
    destruct (build_splits_Ok shuffle shuffle_perm cam_a_imgs cam_b_imgs Heq g)
      as (splits & Hrun & _).
    eauto.
Qed.

(** C7. With no split file yet and listings of the same length,
    [_prepare_split] builds exactly ten splits and stores them as one
    document, an array of ten entries. *)
Theorem prepare_split_creates_ten (w : world G) :
  split_file w = None →
  length (cam_a_bmps w) = length (cam_b_bmps w) →
  ∃ splits w',
    build_splits shuffle (sorted (cam_a_bmps w)) (sorted (cam_b_bmps w)) (np_random w)
    = Ok (splits, np_random w')
    ∧ length splits = 10
    ∧ _prepare_split shuffle w = Ok w'
    ∧ split_file w' = Some (Document (to_json splits))
    ∧ read_json w' ≫= py_len = Ok 10%Z.
Proof.
  intros Hfile Hlen.
  destruct (build_splits_Ok shuffle shuffle_perm
              (sorted (cam_a_bmps w)) (sorted (cam_b_bmps w))) with (g := np_random w)
    as (splits & Hrun & Hten & _).
  { by rewrite !length_sorted. }
  eexists splits, (write_json splits (mkWorld _ _ _ _)). split_and!.
  - exact Hrun.
  - exact Hten.
  - unfold _prepare_split. rewrite Hfile, Hrun. reflexivity.
  - reflexivity.
  - cbn. by rewrite length_fmap, Hten.
Qed.

End Store.

(** ** The theorems on the sample dataset *)

Lemma build_splits_partition_witness :
  length sample_cam_a = length sample_cam_b
  ∧ ∃ splits g',
      build_splits lcg_shuffle sample_cam_a sample_cam_b 42%N = Ok (splits, g')
      ∧ length splits = 10
      ∧ ∀ k split, splits !! k = Some split →
          let train_idxs := take 2 (order_at lcg_shuffle 5 k 42%N) in
          let test_idxs := drop 2 (order_at lcg_shuffle 5 k 42%N) in
          list_to_set train_idxs ∩ list_to_set test_idxs = (∅ : gset nat)
          ∧ list_to_set train_idxs ∪ list_to_set test_idxs = (set_seq 0 5 : gset nat)
          ∧ length (train split) = 2 * length train_idxs
          ∧ length (query split) = 2 * length test_idxs.
Proof.
  split; [reflexivity|].
  destruct (build_splits_partition lcg_shuffle lcg_shuffle_perm
              sample_cam_a sample_cam_b eq_refl 42%N) as (splits & g' & Hrun & Hten & Hall).
  exists splits, g'. split; [exact Hrun|]. split; [exact Hten|].
  intros k split Hk.
  destruct (Hall k split Hk) as (H1 & H2 & H3 & H4 & _).
  repeat split; assumption.
Defined.

Lemma build_splits_counts_witness :
  length sample_cam_a = length sample_cam_b
  ∧ ∃ splits g',
      build_splits lcg_shuffle sample_cam_a sample_cam_b 42%N = Ok (splits, g')
      ∧ length splits = 10
      ∧ ∀ k split, splits !! k = Some split →
          num_train_pids split = 2
          ∧ num_query_pids split = 5 - num_train_pids split
          ∧ num_gallery_pids split = 5 - num_train_pids split.
Proof.
  split; [reflexivity|].
  exact (build_splits_counts lcg_shuffle lcg_shuffle_perm
           sample_cam_a sample_cam_b eq_refl 42%N).
Defined.

Lemma build_splits_records_witness :
  length sample_cam_a = length sample_cam_b
  ∧ ∃ splits g',
      build_splits lcg_shuffle sample_cam_a sample_cam_b 42%N = Ok (splits, g')
      ∧ length splits = 10
      ∧ ∀ k, k < 10 →
          ∃ split,
            splits !! k = Some split
            ∧ length (train split) = 2 * length (take 2 (order_at lcg_shuffle 5 k 42%N))
            ∧ ∀ pid idx, take 2 (order_at lcg_shuffle 5 k 42%N) !! pid = Some idx →
                ∃ a b, sample_cam_a !! idx = Some a ∧ sample_cam_b !! idx = Some b
                  ∧ train split !! (2 * pid) = Some (a, pid, 0)
                  ∧ train split !! (2 * pid + 1) = Some (b, pid, 1).
Proof.
  split; [reflexivity|].
  destruct (build_splits_records lcg_shuffle lcg_shuffle_perm
              sample_cam_a sample_cam_b eq_refl 42%N)
    as (splits & g' & Hrun & Hten & Hall).
  exists splits, g'. split; [exact Hrun|]. split; [exact Hten|].
  intros k Hk. destruct (Hall k Hk) as (split & Hsplit & Htrain & _).
  exists split. split; [exact Hsplit|exact Htrain].
Defined.

Lemma build_splits_query_gallery_witness :
  length sample_cam_a = length sample_cam_b
  ∧ ∃ splits g',
      build_splits lcg_shuffle sample_cam_a sample_cam_b 42%N = Ok (splits, g')
      ∧ length splits = 10
      ∧ ∀ k split, splits !! k = Some split → query split = gallery split.
Proof.
  split; [reflexivity|].
  exact (build_splits_query_gallery lcg_shuffle lcg_shuffle_perm
           sample_cam_a sample_cam_b eq_refl 42%N).
Defined.

(** Five camera-A images against six camera-B images, and five against
    five. *)
Lemma build_splits_length_check_witness :
  build_splits lcg_shuffle sample_cam_a (sample_cam_b ++ ["cam_b/005_90.bmp"]) 42%N
  = Raise (AssertionError None)
  ∧ ∃ splits g',
      build_splits lcg_shuffle sample_cam_a sample_cam_b 42%N = Ok (splits, g').
Proof.
  split.
  - apply (build_splits_length_check lcg_shuffle lcg_shuffle_perm). simpl. lia.
  - apply (build_splits_length_check lcg_shuffle lcg_shuffle_perm). reflexivity.
Defined.

Lemma prepare_split_creates_ten_witness :
  split_file sample_world = None
  ∧ length (cam_a_bmps sample_world) = length (cam_b_bmps sample_world)
  ∧ ∃ splits w',
      build_splits lcg_shuffle (sorted sample_cam_a) (sorted sample_cam_b) 42%N
      = Ok (splits, np_random w')
      ∧ length splits = 10
      ∧ _prepare_split lcg_shuffle sample_world = Ok w'
      ∧ split_file w' = Some (Document (to_json splits))
      ∧ read_json w' ≫= py_len = Ok 10%Z.
Proof.
  split; [reflexivity|]. split; [reflexivity|].
  exact (prepare_split_creates_ten lcg_shuffle lcg_shuffle_perm sample_world
           eq_refl eq_refl).
Defined.

Lemma assemble_negative_split_id_witness :
  length sample_splits = 10
  ∧ (-10 ≤ -3 ≤ -1)%Z
  ∧ ∃ split,
      sample_splits !! 7 = Some split
      ∧ assemble (to_json sample_splits) (-3) true
        = Ok {| self_train := record_tuple <$> train split;
                self_query := record_tuple <$> query split;
                self_gallery := record_tuple <$> gallery split;
                self_num_train_pids := JNum (Z.of_nat (num_train_pids split));
                self_num_query_pids := JNum (Z.of_nat (num_query_pids split));
                self_num_gallery_pids := JNum (Z.of_nat (num_gallery_pids split)) |}.
Proof.
  split; [vm_compute; reflexivity|]. split; [lia|].
  apply (assemble_negative_split_id sample_splits (-3) true).
  - vm_compute; reflexivity.
  - lia.
Defined.

(** * Further properties *)

(** ** Paths *)

Lemma append_cons (c : ascii) (s t : string) : String c s +:+ t = String c (s +:+ t).
Proof. reflexivity. Qed.

Lemma append_assoc (s t u : string) : (s +:+ t) +:+ u = s +:+ (t +:+ u).
Proof. induction s as [|c s IH]; [done|]. rewrite !append_cons. by f_equal. Qed.

Lemma append_nonempty (s t : string) : t ≠ EmptyString → s +:+ t ≠ EmptyString.
Proof. destruct s; [done|]. by rewrite append_cons. Qed.

Lemma ends_with_slash_app (s t : string) :
  t ≠ EmptyString → ends_with_slash (s +:+ t) = ends_with_slash t.
Proof.
  intros Ht. induction s as [|c s IH]; [done|].
  rewrite append_cons. pose proof (append_nonempty s t Ht) as Hne.
  cbn [ends_with_slash]. by destruct (s +:+ t).
Qed.

Lemma length_append (s t : string) :
  String.length (s +:+ t) = String.length s + String.length t.
Proof.
  induction s as [|c s IH]; [done|].
  rewrite append_cons. cbn [String.length]. by rewrite IH.
Qed.

(** A relative component is appended after exactly one slash to a path
    that is not empty and does not end with a slash. *)
Lemma join2_relative (path b : string) :
  starts_with_slash b = false → path ≠ EmptyString → ends_with_slash path = false →
  join2 path b = path +:+ "/" +:+ b.
Proof.
  intros Hb Hne Hend. unfold join2. rewrite Hb, Hend.
  by rewrite bool_decide_eq_false_2.
Qed.

Lemma dataset_dir_cases (root : string) :
  dataset_dir root
  = if bool_decide (root = EmptyString) || ends_with_slash root
    then root +:+ "viper" else root +:+ "/viper".
Proof. reflexivity. Qed.

Lemma dataset_dir_shape (root : string) :
  dataset_dir root ≠ EmptyString ∧ ends_with_slash (dataset_dir root) = false.
Proof.
  rewrite dataset_dir_cases.
  destruct (bool_decide (root = EmptyString) || ends_with_slash root).
  - split; [by apply append_nonempty|]. by rewrite ends_with_slash_app.
  - split; [by apply append_nonempty|]. by rewrite ends_with_slash_app.
Qed.

Lemma paths_shape (root : string) :
  cam_a_path root = dataset_dir root +:+ "/VIPeR/cam_a"
  ∧ cam_b_path root = dataset_dir root +:+ "/VIPeR/cam_b".
Proof.
  destruct (dataset_dir_shape root) as [Hne Hend].
  assert (Hsub : join2 (dataset_dir root) "VIPeR" = dataset_dir root +:+ "/VIPeR").
  { by rewrite join2_relative. }
  assert (Hcam : ∀ name, starts_with_slash name = false →
    osp_join (dataset_dir root) ["VIPeR"; name]
    = dataset_dir root +:+ "/VIPeR" +:+ "/" +:+ name).
  { intros name Hname. unfold osp_join. cbn [foldl]. rewrite Hsub.
    rewrite join2_relative; [|done| |].
    - by rewrite append_assoc.
    - by apply append_nonempty.
    - by rewrite ends_with_slash_app. }
  split.
  - unfold cam_a_path. by rewrite Hcam.
  - unfold cam_b_path. by rewrite Hcam.
Qed.

(** X1. For every [root], the dataset directory is [root] joined with
    "viper" (no second slash when [root] is empty or ends with one), and
    the two camera directories, the split file and the downloaded archive
    lie under it at fixed relative places. *)
Theorem paths_under_dataset_dir (root : string) :
  dataset_dir root
  = (if bool_decide (root = EmptyString) || ends_with_slash root
     then root +:+ "viper" else root +:+ "/viper")
  ∧ cam_a_path root = dataset_dir root +:+ "/VIPeR/cam_a"
  ∧ cam_b_path root = dataset_dir root +:+ "/VIPeR/cam_b"
  ∧ split_path root = dataset_dir root +:+ "/splits.json"
  ∧ osp_join (dataset_dir root) [basename dataset_url]
    = dataset_dir root +:+ "/VIPeR.v1.0.zip".
Proof.
  destruct (dataset_dir_shape root) as [Hne Hend].
  destruct (paths_shape root) as [Ha Hb].
  split_and!; [apply dataset_dir_cases|done|done| |].
  - unfold split_path, osp_join. cbn [foldl]. by rewrite join2_relative.
  - unfold osp_join. cbn [foldl].
    replace (basename dataset_url) with "VIPeR.v1.0.zip" by (by vm_compute).
    by rewrite join2_relative.
Qed.

Lemma append_self_neq (s t : string) : t ≠ EmptyString → s ≠ s +:+ t.
Proof.
  intros Ht Heq. apply (f_equal String.length) in Heq.
  rewrite length_append in Heq. destruct t; [done|]. cbn in Heq. lia.
Qed.

Lemma append_inj_r (u s t : string) : s +:+ u = t +:+ u → s = t.
Proof.
  revert t. induction s as [|c s IH]; intros [|d t] Heq; [done| | |].
  - apply (f_equal String.length) in Heq.
    rewrite append_cons in Heq. cbn [String.length] in Heq.
    rewrite !length_append in Heq. cbn in Heq. lia.
  - apply (f_equal String.length) in Heq.
    rewrite append_cons in Heq. cbn [String.length] in Heq.
    rewrite !length_append in Heq. cbn in Heq. lia.
  - rewrite !append_cons in Heq. injection Heq as -> Heq. f_equal. by apply IH.
Qed.

Lemma not_available_inj (p q : string) : not_available p = not_available q → p = q.
Proof.
  unfold not_available. intros Heq. apply String.app_inj in Heq.
  by apply append_inj_r in Heq.
Qed.

(** The three paths the check names are pairwise different. *)
Lemma checked_paths_distinct (root : string) :
  dataset_dir root ≠ cam_a_path root
  ∧ dataset_dir root ≠ cam_b_path root
  ∧ cam_a_path root ≠ cam_b_path root.
Proof.
  destruct (paths_shape root) as (Ha & Hb).
  rewrite Ha, Hb. split_and!.
  - by apply append_self_neq.
  - by apply append_self_neq.
  - intros Heq. by apply String.app_inj in Heq.
Qed.

(** ** The pre-flight check *)

(** X2. [_check_before_run] returns exactly when the three directories
    exist; otherwise it raises [RuntimeError] for the first missing one in
    the order dataset directory, camera A, camera B, and since the three
    paths differ the message tells which one is missing. *)
Theorem check_before_run_reports {G : Type} (root : string) (m : machine G) :
  (_check_before_run root m = Done ()
   ↔ dataset_dir_exists m ∧ cam_a_path_exists m ∧ cam_b_path_exists m)
  ∧ (_check_before_run root m = Fail (RuntimeError (not_available (dataset_dir root)))
     ↔ ¬ dataset_dir_exists m)
  ∧ (_check_before_run root m = Fail (RuntimeError (not_available (cam_a_path root)))
     ↔ dataset_dir_exists m ∧ ¬ cam_a_path_exists m)
  ∧ (_check_before_run root m = Fail (RuntimeError (not_available (cam_b_path root)))
     ↔ dataset_dir_exists m ∧ cam_a_path_exists m ∧ ¬ cam_b_path_exists m).
Proof.
  destruct (checked_paths_distinct root) as (Hda & Hdb & Hab).
  assert (Hmsg : ∀ p q,
    Fail (A := unit) (RuntimeError (not_available p)) = Fail (RuntimeError (not_available q)) →
    p = q).
  { intros p q H. apply not_available_inj. congruence. }
  unfold _check_before_run.
  destruct (dataset_dir_exists m), (cam_a_path_exists m), (cam_b_path_exists m);
    cbn [negb Is_true]; split_and!; split; intros H;
    first [ discriminate H
          | apply Hmsg in H; congruence
          | reflexivity
          | tauto ].
Qed.

Section ConstructorProperties.
Context {G : Type} (shuffle : G → list nat → list nat * G).
Variable mkdir_if_missing : string → machine G → outcome (machine G).
Variable urlretrieve : string → string → machine G → outcome (machine G).
Variable extractall : string → string → machine G → outcome (machine G).

(** X3. When the dataset directory exists nothing is downloaded, whatever
    state the directory is in: the constructor behaves the same for any
    download helpers, and a directory without its camera-A (or camera-B)
    folder makes it fail with the [RuntimeError] naming that folder. *)
Theorem new_VIPeR_existing_dir (root : string) (split_id : Z) (verbose : bool)
    (m : machine G) :
  dataset_dir_exists m = true →
  (∀ mkdir_if_missing' urlretrieve' extractall',
     new_VIPeR shuffle mkdir_if_missing urlretrieve extractall root split_id verbose m
     = new_VIPeR shuffle mkdir_if_missing' urlretrieve' extractall' root split_id verbose m)
  ∧ (cam_a_path_exists m = false →
       new_VIPeR shuffle mkdir_if_missing urlretrieve extractall root split_id verbose m
       = Fail (RuntimeError (not_available (cam_a_path root))))
  ∧ (cam_a_path_exists m = true → cam_b_path_exists m = false →
       new_VIPeR shuffle mkdir_if_missing urlretrieve extractall root split_id verbose m
       = Fail (RuntimeError (not_available (cam_b_path root)))).
Proof.
  intros Hdir. unfold new_VIPeR, _download_data. rewrite Hdir.
  cbn [mbind outcome_bind]. split_and!.
  - done.
  - intros Ha. unfold _check_before_run. by rewrite Hdir, Ha.
  - intros Ha Hb. unfold _check_before_run. by rewrite Hdir, Ha, Hb.
Qed.

End ConstructorProperties.

(** ** Assembly on arbitrary documents *)

Lemma assemble_entry_step (items : list json) (split_id : Z) (verbose : bool) (split : json) :
  (split_id < Z.of_nat (length items))%Z →
  list_getitem items split_id = Ok split →
  assemble (JArr items) split_id verbose
  = assemble (JArr [split]) 0 verbose.
Proof.
  intros Hlt Hget. unfold assemble. cbn [py_len length]. rewrite !bind_Ok.
  rewrite bool_decide_eq_false_2 by lia.
  rewrite (bool_decide_eq_false_2 (Z.of_nat 1 ≤ 0)%Z) by lia.
  cbn [py_getitem_int]. rewrite Hget.
  by replace (list_getitem [split] 0) with (Ok split) by done.
Qed.


(** X5. Assembly trusts the document: record arrays of any length become
    tuples of that length, and the counts are passed on as stored, without
    being compared with the record lists or with each other. *)
Theorem assemble_trusts_document (items : list json) (split_id : Z)
    (kv : list (string * json)) (verbose : bool)
    (tr qu ga : list (list json)) (a b c : Z) :
  (split_id < Z.of_nat (length items))%Z →
  list_getitem items split_id = Ok (JObj kv) →
  assoc "train" kv = Some (JArr (JArr <$> tr)) →
  assoc "query" kv = Some (JArr (JArr <$> qu)) →
  assoc "gallery" kv = Some (JArr (JArr <$> ga)) →
  assoc "num_train_pids" kv = Some (JNum a) →
  assoc "num_query_pids" kv = Some (JNum b) →
  assoc "num_gallery_pids" kv = Some (JNum c) →
  assemble (JArr items) split_id verbose
  = Ok {| self_train := tr; self_query := qu; self_gallery := ga;
          self_num_train_pids := JNum a; self_num_query_pids := JNum b;
          self_num_gallery_pids := JNum c |}.
Proof.
  intros Hlt Hget Htr Hqu Hga Ha Hb Hc.
  assert (Hrows : ∀ rows : list (list json), tuples (JArr (JArr <$> rows)) = Ok rows).
  { intros rows. unfold tuples. cbn [py_iter]. rewrite bind_Ok.
    induction rows as [|row rows IH]; [done|].
    cbn [fmap list_fmap comprehension]. by rewrite IH. }
  rewrite (assemble_entry_step _ _ _ _ Hlt Hget).
  unfold assemble. cbn [py_len length]. rewrite bind_Ok.
  rewrite bool_decide_eq_false_2 by lia.
  replace (py_getitem_int (JArr [JObj kv]) 0) with (Ok (JObj kv)) by done.
  rewrite bind_Ok. cbn [py_getitem_str].
  rewrite Htr, Hqu, Hga, Ha, Hb, Hc, !bind_Ok, !Hrows, !bind_Ok.
  cbn [py_add as_int]. rewrite bind_Ok. by destruct verbose.
Qed.

Lemma print_statistics_ints (a b c t : json) :
  is_Some (as_int a) → is_Some (as_int b) → is_Some (as_int c) → is_Some (as_int t) →
  print_statistics a b c t = Ok ().
Proof.
  intros [? Ha] [? Hb] [? Hc] [? Ht]. unfold print_statistics.
  destruct a, b, c, t; by simplify_eq/=.
Qed.

Lemma py_add_ints (a b t : json) :
  is_Some (as_int a) → is_Some (as_int b) → py_add a b = Ok t → is_Some (as_int t).
Proof.
  intros [x Ha] [y Hb]. unfold py_add. rewrite Ha, Hb. intros [= <-]. by eexists.
Qed.

(** X6. [verbose] only adds the printing of the table: whatever is
    returned with [verbose] true is returned with it false, every failure
    without printing is the same failure with printing, and when the three
    stored counts are ints printing changes nothing at all. *)
Theorem assemble_verbose (splits : json) (split_id : Z) :
  (∀ self, assemble splits split_id true = Ok self →
           assemble splits split_id false = Ok self)
  ∧ (∀ e, assemble splits split_id false = Raise e →
          assemble splits split_id true = Raise e)
  ∧ (∀ self, assemble splits split_id false = Ok self →
       is_Some (as_int (self_num_train_pids self)) →
       is_Some (as_int (self_num_query_pids self)) →
       is_Some (as_int (self_num_gallery_pids self)) →
       assemble splits split_id true = Ok self).
Proof.
  unfold assemble.
  destruct (py_len splits) as [n|e0]; [|by split_and!].
  rewrite !bind_Ok. case_bool_decide; [by split_and!|].
  repeat (match goal with
          | |- context [@mbind result _ _ _ _ ?m] =>
              lazymatch m with
              | (if _ then _ else _) => fail
              | _ => destruct m eqn:?; rewrite ?bind_Ok, ?bind_Raise; [|by split_and!]
              end
          end).
  split_and!.
  - intros self. by destruct (print_statistics _ _ _ _) as [[]|e].
  - by intros e [=].
  - intros self [= <-] Ha Hb Hc. cbn [self_num_train_pids self_num_query_pids
      self_num_gallery_pids] in *.
    rewrite print_statistics_ints; eauto using py_add_ints.
Qed.

Lemma assemble_below_range_witness :
  (-11 < - Z.of_nat (length (to_json <$> sample_splits)))%Z
  ∧ assemble (JArr (to_json <$> sample_splits)) (-11) true = Raise IndexError.
Proof.
  assert (H : (-11 < - Z.of_nat (length (to_json <$> sample_splits)))%Z)
    by (vm_compute; reflexivity).
  split; [exact H|]. exact (assemble_below_range _ (-11) true H).
Defined.

(** ** More on the builder *)

(** The paths and the labels the labelling loop emits. *)
Lemma for_enumerate_append_pair_maps (cam_a_imgs cam_b_imgs : list string) (idxs : list nat) :
  ∀ (start : nat) (acc : list ImageRecord),
  (∀ idx, idx ∈ idxs → idx < length cam_a_imgs ∧ idx < length cam_b_imgs) →
  ∃ recs : list ImageRecord,
    for_enumerate (append_pair cam_a_imgs cam_b_imgs) start idxs acc = Ok (acc ++ recs)
    ∧ (λ r : ImageRecord, r.1.1) <$> recs
      = flat_map (λ idx, [cam_a_imgs !!! idx; cam_b_imgs !!! idx]) idxs
    ∧ (λ r : ImageRecord, (r.1.2, r.2)) <$> recs
      = flat_map (λ pid, [(pid, 0); (pid, 1)]) (seq start (length idxs)).
Proof.
  induction idxs as [|idx idxs IH]; intros start acc Hin.
  - exists []. by rewrite app_nil_r.
  - destruct (Hin idx) as [Ha Hb]; [by left|].
    apply lookup_lt_is_Some in Ha as [a Ha].
    apply lookup_lt_is_Some in Hb as [b Hb].
    destruct (IH (S start) ((acc ++ [(a, start, 0)]) ++ [(b, start, 1)]))
      as (recs & Heq & Hpaths & Hlabels).
    { intros i Hi. apply Hin. by right. }
    exists ((a, start, 0) :: (b, start, 1) :: recs). split_and!.
    + cbn [for_enumerate].
      rewrite (append_pair_Ok _ _ _ _ _ _ _ Ha Hb), bind_Ok, Heq.
      f_equal. by rewrite <- !app_assoc.
    + cbn [fmap list_fmap flat_map app fst snd]. rewrite Hpaths.
      by rewrite (list_lookup_total_correct _ _ _ Ha), (list_lookup_total_correct _ _ _ Hb).
    + cbn [fmap list_fmap length seq flat_map app fst snd]. by rewrite Hlabels.
Qed.

Lemma flat_map_pair_perm {A B : Type} (f g : A → B) (l : list A) :
  flat_map (λ x, [f x; g x]) l ≡ₚ (f <$> l) ++ (g <$> l).
Proof.
  induction l as [|x l IH]; [done|].
  cbn [flat_map app fmap list_fmap]. rewrite IH.
  by rewrite <- Permutation_middle.
Qed.

Lemma length_flat_map_two {A B : Type} (f : A → list B) (l : list A) :
  (∀ x, length (f x) = 2) → length (flat_map f l) = 2 * length l.
Proof.
  intros Hf. induction l as [|x l IH]; [done|].
  cbn [flat_map]. rewrite length_app, Hf, IH. cbn [length]. lia.
Qed.

Lemma fmap_lookup_total_seq (l : list string) : (λ i, l !!! i) <$> seq 0 (length l) = l.
Proof.
  apply list_eq. intros i. rewrite list_lookup_fmap.
  destruct (decide (i < length l)) as [Hlt|Hge].
  - rewrite lookup_seq_lt by done. cbn.
    destruct (lookup_lt_is_Some_2 l i Hlt) as [x Hx].
    by rewrite Hx, (list_lookup_total_correct _ _ _ Hx).
  - rewrite lookup_seq_ge by lia. cbn. symmetry. apply lookup_ge_None. lia.
Qed.

Section BuilderProperties.
Context {G : Type} (shuffle : G → list nat → list nat * G).
Hypothesis shuffle_perm : ∀ (g : G) (x : list nat), (shuffle g x).1 ≡ₚ x.
Variables cam_a_imgs cam_b_imgs : list string.
Hypothesis same_length : length cam_a_imgs = length cam_b_imgs.

(** What every split of the builder holds, in terms of the permutation its
    trial drew. *)
Lemma split_contents (g : G) :
  ∃ splits g',
    build_splits shuffle cam_a_imgs cam_b_imgs g = Ok (splits, g')
    ∧ length splits = 10
    ∧ ∀ k split, splits !! k = Some split →
        let n := length cam_a_imgs in
        let order := order_at shuffle n k g in
        order ≡ₚ seq 0 n
        ∧ num_train_pids split = n `div` 2
        ∧ num_query_pids split = n - n `div` 2
        ∧ num_gallery_pids split = n - n `div` 2
        ∧ gallery split = query split
        ∧ (λ r : ImageRecord, r.1.1) <$> train split
          = flat_map (λ idx, [cam_a_imgs !!! idx; cam_b_imgs !!! idx]) (take (n `div` 2) order)
        ∧ (λ r : ImageRecord, r.1.1) <$> query split
          = flat_map (λ idx, [cam_a_imgs !!! idx; cam_b_imgs !!! idx]) (drop (n `div` 2) order)
        ∧ (λ r : ImageRecord, (r.1.2, r.2)) <$> train split
          = flat_map (λ pid, [(pid, 0); (pid, 1)]) (seq 0 (n `div` 2))
        ∧ (λ r : ImageRecord, (r.1.2, r.2)) <$> query split
          = flat_map (λ pid, [(pid, 0); (pid, 1)]) (seq 0 (n - n `div` 2)).
Proof.
  destruct (build_splits_Ok shuffle shuffle_perm cam_a_imgs cam_b_imgs same_length g)
    as (splits & Hrun & Hten & Hall).
  exists splits, (rng_at shuffle (length cam_a_imgs) 10 g). split_and!; [done..|].
  intros k split Hk n order.
  destruct (Hall k split Hk) as (tr & te & Htr & Hte & ->). cbn [train query gallery
    num_train_pids num_query_pids num_gallery_pids].
  assert (Hperm : order ≡ₚ seq 0 n) by apply (order_at_perm shuffle shuffle_perm).
  assert (Hlen : length order = n) by (by rewrite Hperm, length_seq).
  assert (Hrange : ∀ idxs, idxs ⊆ order →
    ∀ idx, idx ∈ idxs → idx < length cam_a_imgs ∧ idx < length cam_b_imgs).
  { intros idxs. apply (idxs_in_range shuffle shuffle_perm cam_a_imgs cam_b_imgs same_length k g). }
  destruct (for_enumerate_append_pair_maps cam_a_imgs cam_b_imgs
              (take (n `div` 2) order) 0 []) as (tr' & Htr' & Hp1 & Hl1).
  { apply Hrange, subseteq_take. }
  destruct (for_enumerate_append_pair_maps cam_a_imgs cam_b_imgs
              (drop (n `div` 2) order) 0 []) as (te' & Hte' & Hp2 & Hl2).
  { apply Hrange, subseteq_drop. }
  fold n in Htr, Hte. fold order in Htr, Hte.
  rewrite Htr in Htr'. rewrite Hte in Hte'.
  injection Htr' as ->. injection Hte' as ->.
  assert (Hhalf : n `div` 2 ≤ n) by (apply Nat.Div0.div_le_upper_bound; lia).
  rewrite length_take, Hlen, Nat.min_l in Hl1 by done.
  rewrite length_drop, Hlen in Hl2.
  by split_and!.
Qed.

(** X7. In every split the builder produces, each record list holds two
    records per counted identity, the train and test counts add up to the
    number of identities, and test holds as many identities as train, or
    one more when the number is odd; there are ten such splits. *)
Theorem build_splits_sizes (g : G) :
  ∃ splits g',
    build_splits shuffle cam_a_imgs cam_b_imgs g = Ok (splits, g')
    ∧ length splits = 10
    ∧ ∀ k split, splits !! k = Some split →
        length (train split) = 2 * num_train_pids split
        ∧ length (query split) = 2 * num_query_pids split
        ∧ length (gallery split) = 2 * num_gallery_pids split
        ∧ num_train_pids split + num_query_pids split = length cam_a_imgs
        ∧ num_train_pids split ≤ num_query_pids split ≤ num_train_pids split + 1.
Proof.
  destruct (split_contents g) as (splits & g' & Hrun & Hten & Hall).
  exists splits, g'. split_and!; [done..|].
  intros k split Hk.
  destruct (Hall k split Hk) as (_ & Hnt & Hnq & Hng & Hgal & _ & _ & Hl1 & Hl2).
  apply (f_equal length) in Hl1, Hl2.
  rewrite length_fmap, length_flat_map_two, length_seq in Hl1, Hl2 by done.
  rewrite Hgal, Hnt, Hnq, Hng.
  pose proof (Nat.div_mod_eq (length cam_a_imgs) 2) as Hdm.
  pose proof (Nat.mod_upper_bound (length cam_a_imgs) 2) as Hmod.
  lia.
Qed.

(** X8. The new labels are dense: in every split the (pid, camid) pairs of
    train are (0,0), (0,1), (1,0), (1,1), ... up to num_train_pids - 1, and
    those of query the same up to num_query_pids - 1; there are ten such
    splits. *)
Theorem build_splits_labels (g : G) :
  ∃ splits g',
    build_splits shuffle cam_a_imgs cam_b_imgs g = Ok (splits, g')
    ∧ length splits = 10
    ∧ ∀ k split, splits !! k = Some split →
        (λ r : ImageRecord, (r.1.2, r.2)) <$> train split
        = flat_map (λ pid, [(pid, 0); (pid, 1)]) (seq 0 (num_train_pids split))
        ∧ (λ r : ImageRecord, (r.1.2, r.2)) <$> query split
          = flat_map (λ pid, [(pid, 0); (pid, 1)]) (seq 0 (num_query_pids split)).
Proof.
  destruct (split_contents g) as (splits & g' & Hrun & Hten & Hall).
  exists splits, g'. split_and!; [done..|].
  intros k split Hk.
  destruct (Hall k split Hk) as (_ & Hnt & Hnq & _ & _ & _ & _ & Hl1 & Hl2).
  by rewrite Hnt, Hnq.
Qed.

(** The image paths of train and query together are the two listings,
    rearranged. *)
Lemma split_paths_perm (g : G) :
  ∃ splits g',
    build_splits shuffle cam_a_imgs cam_b_imgs g = Ok (splits, g')
    ∧ length splits = 10
    ∧ ∀ k split, splits !! k = Some split →
        (λ r : ImageRecord, r.1.1) <$> (train split ++ query split)
        ≡ₚ cam_a_imgs ++ cam_b_imgs.
Proof.
  destruct (split_contents g) as (splits & g' & Hrun & Hten & Hall).
  exists splits, g'. split_and!; [done..|].
  intros k split Hk.
  destruct (Hall k split Hk) as (Hperm & _ & _ & _ & _ & Hp1 & Hp2 & _).
  rewrite fmap_app, Hp1, Hp2, <- flat_map_app, take_drop.
  rewrite (Permutation_flat_map _ Hperm), flat_map_pair_perm.
  rewrite fmap_lookup_total_seq, same_length, fmap_lookup_total_seq. done.
Qed.

(** X9. No image is lost and none is used twice: in every split, the
    paths of train followed by those of query are a rearrangement of the
    camera-A listing followed by the camera-B listing; there are ten such
    splits. *)
Theorem build_splits_uses_every_image (g : G) :
  ∃ splits g',
    build_splits shuffle cam_a_imgs cam_b_imgs g = Ok (splits, g')
    ∧ length splits = 10
    ∧ ∀ k split, splits !! k = Some split →
        (λ r : ImageRecord, r.1.1) <$> (train split ++ query split)
        ≡ₚ cam_a_imgs ++ cam_b_imgs.
Proof. exact (split_paths_perm g). Qed.

(** X10. When the two listings name pairwise different files, no image of
    a split's train set is in its query (or gallery) set, and no image
    occurs twice within train or within query. *)
Theorem build_splits_no_shared_image (g : G) :
  NoDup (cam_a_imgs ++ cam_b_imgs) →
  ∃ splits g',
    build_splits shuffle cam_a_imgs cam_b_imgs g = Ok (splits, g')
    ∧ ∀ k split, splits !! k = Some split →
        NoDup ((λ r : ImageRecord, r.1.1) <$> train split)
        ∧ NoDup ((λ r : ImageRecord, r.1.1) <$> query split)
        ∧ ∀ r r', r ∈ train split → r' ∈ query split ∨ r' ∈ gallery split →
                  r.1.1 ≠ r'.1.1.
Proof.
  intros Hnd.
  destruct (split_contents g) as (splits & g' & Hrun & _ & Hall).
  destruct (split_paths_perm g) as (splits' & g'' & Hrun' & _ & Hpaths).
  rewrite Hrun in Hrun'. injection Hrun' as <- <-.
  exists splits, g'. split; [done|].
  intros k split Hk.
  destruct (Hall k split Hk) as (_ & _ & _ & _ & Hgal & _).
  pose proof (Hpaths k split Hk) as Hp. rewrite <- Hp, fmap_app in Hnd.
  apply NoDup_app in Hnd as (Hnd1 & Hdisj & Hnd2).
  split_and!; [done..|].
  intros r r' Hr Hr' Heq. rewrite Hgal in Hr'.
  apply (Hdisj r.1.1).
  - by apply (list_elem_of_fmap_2 (λ r : ImageRecord, r.1.1)).
  - rewrite Heq. apply (list_elem_of_fmap_2 (λ r : ImageRecord, r.1.1)).
    by destruct Hr'.
Qed.

(** X11. With fewer than two identities the training set is empty: the
    builder still returns its ten splits, each with no train record and a train
    count of 0, and with the one identity (if there is one) as the whole
    test set. *)
Theorem build_splits_small (g : G) :
  length cam_a_imgs ≤ 1 →
  ∃ splits g',
    build_splits shuffle cam_a_imgs cam_b_imgs g = Ok (splits, g')
    ∧ length splits = 10
    ∧ ∀ k split, splits !! k = Some split →
        train split = []
        ∧ num_train_pids split = 0
        ∧ num_query_pids split = length cam_a_imgs
        ∧ query split
          = flat_map (λ ab : string * string, [(ab.1, 0, 0); (ab.2, 0, 1)])
              (zip cam_a_imgs cam_b_imgs).
Proof.
  intros Hsmall.
  destruct (build_splits_Ok shuffle shuffle_perm cam_a_imgs cam_b_imgs same_length g)
    as (splits & Hrun & Hten & Hall).
  exists splits, (rng_at shuffle (length cam_a_imgs) 10 g). split_and!; [done..|].
  intros k split Hk.
  destruct (Hall k split Hk) as (tr & te & Htr & Hte & ->).
  cbn [train query num_train_pids num_query_pids].
  pose proof (order_at_perm shuffle shuffle_perm (length cam_a_imgs) k g) as Hperm.
  assert (Hhalf : length cam_a_imgs `div` 2 = 0) by (apply Nat.div_small; lia).
  rewrite Hhalf in Htr, Hte |- *. cbn [take drop] in Htr, Hte.
  cbn [for_enumerate] in Htr. injection Htr as <-.
  split_and!; [done|done|lia|].
  destruct cam_a_imgs as [|a [|a' l]], cam_b_imgs as [|b [|b' l']];
    cbn [length] in *; try lia.
  - apply Permutation_nil_r in Hperm. rewrite Hperm in Hte.
    cbn in Hte. by injection Hte as <-.
  - apply Permutation_singleton_r in Hperm. rewrite Hperm in Hte.
    cbn in Hte. by injection Hte as <-.
Qed.

End BuilderProperties.

(** ** Listings and the order of [glob] *)

(** Sorting forgets the order the directory was listed in. *)
Lemma sorted_perm (l l' : list string) : l ≡ₚ l' → sorted l = sorted l'.
Proof.
  intros Hp. unfold sorted.
  change (λ s t : string, Is_true (String.leb s t)) with String.le.
  apply (StronglySorted_unique String.le).
  - apply StronglySorted_merge_sort; apply _.
  - apply StronglySorted_merge_sort; apply _.
  - by rewrite !merge_sort_Permutation.
Qed.

(** X12. The splits do not depend on the order in which [glob] lists the
    two directories: from two machines that differ only in that order, with
    no split file yet, load-or-create returns the same document and leaves
    the generator in the same state, or fails the same way. *)
Theorem load_or_create_listing_order {G : Type} (shuffle : G → list nat → list nat * G)
    (w w' : world G) :
  cam_a_bmps w ≡ₚ cam_a_bmps w' →
  cam_b_bmps w ≡ₚ cam_b_bmps w' →
  split_file w = None → split_file w' = None →
  np_random w = np_random w' →
  (∀ doc w1, load_or_create shuffle w = Ok (doc, w1) →
     ∃ w1', load_or_create shuffle w' = Ok (doc, w1')
            ∧ split_file w1' = split_file w1 ∧ np_random w1' = np_random w1)
  ∧ (∀ e, load_or_create shuffle w = Raise e → load_or_create shuffle w' = Raise e).
Proof.
  intros Ha Hb Hf Hf' Hg. unfold load_or_create, _prepare_split.
  rewrite Hf, Hf', (sorted_perm _ _ Ha), (sorted_perm _ _ Hb), Hg.
  destruct (build_splits shuffle _ _ _) as [[splits g]|e0]; [|by split].
  rewrite !bind_Ok. cbn. split.
  - intros doc w1 [= <- <-]. eexists. by split_and!.
  - by intros e [=].
Qed.

(** ** The constructor as a whole *)

Lemma assemble_range_error_iff (items : list json) (split_id : Z) (verbose : bool) :
  (Z.of_nat (length items) ≤ split_id)%Z →
  assemble (JArr items) split_id verbose
  = Raise (ValueError (exceeds_range split_id (Z.of_nat (length items)))).
Proof.
  intros Hge. unfold assemble. cbn [py_len]. rewrite bind_Ok.
  by rewrite bool_decide_eq_true_2.
Qed.

Lemma assemble_index_error (items : list json) (split_id : Z) (verbose : bool) :
  (split_id < - Z.of_nat (length items))%Z →
  assemble (JArr items) split_id verbose = Raise IndexError.
Proof.
  intros Hlt. unfold assemble. cbn [py_len]. rewrite bind_Ok.
  rewrite bool_decide_eq_false_2 by lia.
  cbn [py_getitem_int]. by rewrite list_getitem_below.
Qed.

Lemma load_or_create_hit {G : Type} (shuffle : G → list nat → list nat * G)
    (w : world G) (doc : json) :
  split_file w = Some (Document doc) → load_or_create shuffle w = Ok (doc, w).
Proof.
  intros Hdoc. unfold load_or_create, _prepare_split, read_json.
  by rewrite Hdoc, bind_Ok, Hdoc.
Qed.

(** After a call that returned, the document it returned is in the file. *)
Lemma load_or_create_stored {G : Type} (shuffle : G → list nat → list nat * G)
    (w w1 : world G) (doc : json) :
  load_or_create shuffle w = Ok (doc, w1) → split_file w1 = Some (Document doc).
Proof.
  unfold load_or_create, _prepare_split. intros Hload.
  destruct (split_file w) as [[|doc']|] eqn:Hfile.
  - rewrite bind_Ok in Hload. unfold read_json in Hload. by rewrite Hfile in Hload.
  - rewrite bind_Ok in Hload. unfold read_json in Hload. rewrite Hfile in Hload.
    cbn in Hload. by simplify_eq.
  - destruct (build_splits shuffle _ _ _) as [[sp g]|e]; [|done].
    cbn in Hload. by simplify_eq.
Qed.

(** X13. A construction that succeeded can be repeated: on the machine it
    left behind, constructing again with the same [split_id] and [verbose]
    returns the same dataset and changes nothing, whatever the random
    generator would draw now. *)
Theorem init_reproducible {G : Type} (shuffle : G → list nat → list nat * G)
    (split_id : Z) (verbose : bool) (w w1 : world G) (self : VIPeR) :
  __init__ shuffle split_id verbose w = Ok (self, w1) →
  ∀ shuffle' : G → list nat → list nat * G,
    __init__ shuffle' split_id verbose w1 = Ok (self, w1).
Proof.
  unfold __init__. intros Hinit shuffle'.
  destruct (load_or_create shuffle w) as [[doc w']|e] eqn:Hload; [|done].
  rewrite bind_Ok in Hinit.
  destruct (assemble doc split_id verbose) as [self'|e] eqn:Hasm; [|done].
  rewrite bind_Ok in Hinit. injection Hinit as <- <-.
  rewrite (load_or_create_hit shuffle' w' doc (load_or_create_stored _ _ _ _ Hload)).
  by rewrite bind_Ok, Hasm.
Qed.

Section Fresh.
Context {G : Type} (shuffle : G → list nat → list nat * G).
Hypothesis shuffle_perm : ∀ (g : G) (x : list nat), (shuffle g x).1 ≡ₚ x.
Variable mkdir_if_missing : string → machine G → outcome (machine G).
Variable urlretrieve : string → string → machine G → outcome (machine G).
Variable extractall : string → string → machine G → outcome (machine G).

Variable m : machine G.
Hypothesis unpacked :
  dataset_dir_exists m = true ∧ cam_a_path_exists m = true ∧ cam_b_path_exists m = true.
Hypothesis no_split_file : split_file (files m) = None.
Hypothesis same_length : length (cam_a_bmps (files m)) = length (cam_b_bmps (files m)).

(** On an unpacked directory without split file, the constructor gets as
    far as assembling the document of ten fresh splits. *)
Lemma new_VIPeR_fresh (root : string) (split_id : Z) (verbose : bool) :
  ∃ (splits : list Split) (w1 : world G),
    length splits = 10
    ∧ split_file w1 = Some (Document (to_json splits))
    ∧ (∀ k split, splits !! k = Some split →
         gallery split = query split
         ∧ length (train split) = 2 * (length (cam_a_bmps (files m)) `div` 2)
         ∧ length (query split)
           = 2 * (length (cam_a_bmps (files m)) - length (cam_a_bmps (files m)) `div` 2)
         ∧ num_train_pids split = length (cam_a_bmps (files m)) `div` 2
         ∧ num_query_pids split
           = length (cam_a_bmps (files m)) - length (cam_a_bmps (files m)) `div` 2
         ∧ num_gallery_pids split = num_query_pids split)
    ∧ new_VIPeR shuffle mkdir_if_missing urlretrieve extractall root split_id verbose m
      = match assemble (to_json splits) split_id verbose with
        | Ok self => Done (self, mkMachine true true true w1)
        | Raise e => Fail (Exn e)
        end.
Proof.
  destruct unpacked as (Hd & Ha & Hb).
  assert (Hlen : length (sorted (cam_a_bmps (files m)))
                 = length (sorted (cam_b_bmps (files m)))).
  { by rewrite !length_sorted. }
  destruct (split_contents shuffle shuffle_perm _ _ Hlen (np_random (files m)))
    as (splits & g' & Hrun & Hten & Hall).
  exists splits, (write_json splits
    (mkWorld (cam_a_bmps (files m)) (cam_b_bmps (files m)) (split_file (files m)) g')).
  split_and!; [done|done| |].
  - intros k split Hk. rewrite length_sorted in Hall.
    destruct (Hall k split Hk) as (_ & Hnt & Hnq & Hng & Hgal & _ & _ & Hl1 & Hl2).
    apply (f_equal length) in Hl1, Hl2.
    rewrite length_fmap, length_flat_map_two, length_seq in Hl1, Hl2 by done.
    split_and!; [done..|]. by rewrite Hng, Hnq.
  - unfold new_VIPeR, _download_data, _check_before_run. rewrite Hd.
    cbn [mbind outcome_bind]. rewrite Hd, Ha, Hb. cbn [negb mbind outcome_bind].
    unfold __init__, load_or_create, _prepare_split.
    rewrite no_split_file, Hrun, !bind_Ok.
    replace (read_json (write_json splits _)) with (Ok (to_json splits)) by done.
    rewrite !bind_Ok.
    by destruct (assemble (to_json splits) split_id verbose).
Qed.

(** X14. On an unpacked dataset directory that has no split file yet and
    holds equally many images per camera, the constructor succeeds for
    every [split_id] from 0 to 9: it stores ten splits and returns a dataset
    whose gallery is its query, with two 3-tuples per counted identity,
    num_pids // 2 train identities and the remaining ones as query and
    gallery identities. *)
Theorem new_VIPeR_fresh_dataset (root : string) (split_id : Z) (verbose : bool) :
  (0 ≤ split_id < 10)%Z →
  let n := length (cam_a_bmps (files m)) in
  ∃ self m',
    new_VIPeR shuffle mkdir_if_missing urlretrieve extractall root split_id verbose m
    = Done (self, m')
    ∧ (∃ splits : list Split,
         length splits = 10
         ∧ split_file (files m') = Some (Document (to_json splits)))
    ∧ self_gallery self = self_query self
    ∧ length (self_train self) = 2 * (n `div` 2)
    ∧ length (self_query self) = 2 * (n - n `div` 2)
    ∧ Forall (λ t : pytuple, length t = 3) (self_train self ++ self_query self)
    ∧ self_num_train_pids self = JNum (Z.of_nat (n `div` 2))
    ∧ self_num_query_pids self = JNum (Z.of_nat (n - n `div` 2))
    ∧ self_num_gallery_pids self = JNum (Z.of_nat (n - n `div` 2)).
Proof.
  intros Hid n.
  destruct (new_VIPeR_fresh root split_id verbose)
    as (splits & w1 & Hten & Hfile & Hall & Hnew).
  destruct (lookup_lt_is_Some_2 splits (Z.to_nat split_id)) as [split Hsplit]; [lia|].
  rewrite (assemble_to_json splits split_id _ split verbose Hsplit) in Hnew
    by (left; lia).
  destruct (Hall _ _ Hsplit) as (Hgal & Hl1 & Hl2 & Hnt & Hnq & Hng).
  eexists _, _. split; [exact Hnew|].
  cbn [files self_train self_query self_gallery self_num_train_pids
       self_num_query_pids self_num_gallery_pids].
  split_and!.
  - by exists splits.
  - by rewrite Hgal.
  - by rewrite length_fmap.
  - by rewrite length_fmap.
  - rewrite Forall_app. split; apply record_tuple_length.
  - by rewrite Hnt.
  - by rewrite Hnq.
  - by rewrite Hng, Hnq.
Qed.

(** X15. On the same fresh directory the valid indices are exactly those
    of ten splits: a [split_id] of 10 or more fails with the range error
    naming 0 and 9, one below -10 with [IndexError]. *)
Theorem new_VIPeR_fresh_out_of_range (root : string) (split_id : Z) (verbose : bool) :
  ((10 ≤ split_id)%Z →
     new_VIPeR shuffle mkdir_if_missing urlretrieve extractall root split_id verbose m
     = Fail (Exn (ValueError (exceeds_range split_id 10))))
  ∧ ((split_id < -10)%Z →
       new_VIPeR shuffle mkdir_if_missing urlretrieve extractall root split_id verbose m
       = Fail (Exn IndexError)).
Proof.
  destruct (new_VIPeR_fresh root split_id verbose)
    as (splits & w1 & Hten & Hfile & Hall & Hnew).
  rewrite Hnew. change (to_json splits) with (JArr (to_json <$> splits)).
  assert (Hlen : length (to_json <$> splits) = 10) by (by rewrite length_fmap).
  split; intros Hid.
  - assert (Hr : assemble (JArr (to_json <$> splits)) split_id verbose
                 = Raise (ValueError (exceeds_range split_id
                                        (Z.of_nat (length (to_json <$> splits)))))).
    { apply assemble_range_error_iff. lia. }
    by rewrite Hr, Hlen.
  - rewrite assemble_index_error by lia. done.
Qed.

End Fresh.

(** ** What the builder checks by itself *)

Lemma append_pair_cases (cam_a_imgs cam_b_imgs : list string)
    (records : list ImageRecord) (pid idx : nat) :
  append_pair cam_a_imgs cam_b_imgs records pid idx
  = match cam_a_imgs !! idx, cam_b_imgs !! idx with
    | Some a, Some b => Ok ((records ++ [(a, pid, 0)]) ++ [(b, pid, 1)])
    | _, _ => Raise IndexError
    end.
Proof.
  unfold append_pair, getitem.
  by destruct (cam_a_imgs !! idx), (cam_b_imgs !! idx).
Qed.

(** The labelling loop returns only if every index is within both
    listings. *)
Lemma for_enumerate_append_pair_inv (cam_a_imgs cam_b_imgs : list string) (idxs : list nat) :
  ∀ (start : nat) (acc recs : list ImageRecord),
  for_enumerate (append_pair cam_a_imgs cam_b_imgs) start idxs acc = Ok recs →
  ∀ idx, idx ∈ idxs → idx < length cam_a_imgs ∧ idx < length cam_b_imgs.
Proof.
  induction idxs as [|i idxs IH]; intros start acc recs Hrun idx Hin.
  - by apply elem_of_nil in Hin.
  - cbn [for_enumerate] in Hrun. rewrite append_pair_cases in Hrun.
    destruct (cam_a_imgs !! i) as [a|] eqn:Ha; [|done].
    destruct (cam_b_imgs !! i) as [b|] eqn:Hb; [|done].
    rewrite bind_Ok in Hrun.
    apply elem_of_cons in Hin as [->|Hin].
    + split; eapply lookup_lt_Some; eauto.
    + by eapply IH.
Qed.

Section AnyShuffle.
Context {G : Type} (shuffle : G → list nat → list nat * G).
Variables cam_a_imgs cam_b_imgs : list string.

Lemma trial_inv (num_pids num_train_pids : nat) (splits out : list Split) (g g1 : G) :
  trial shuffle cam_a_imgs cam_b_imgs num_pids num_train_pids (splits, g) = Ok (out, g1) →
  let order := (shuffle g (arange num_pids)).1 in
  g1 = (shuffle g (arange num_pids)).2
  ∧ (∃ split, out = splits ++ [split])
  ∧ list_to_set (take num_train_pids order) ∩ list_to_set (drop num_train_pids order)
    = (∅ : gset nat)
  ∧ ∀ idx, idx ∈ order → idx < length cam_a_imgs ∧ idx < length cam_b_imgs.
Proof.
  unfold trial. cbn [fst snd].
  destruct (shuffle g (arange num_pids)) as [order g2]. cbn [fst snd].
  case_bool_decide as Hdisj; [|done]. cbn [py_assert]. rewrite bind_Ok.
  destruct (for_enumerate _ 0 (take _ _) []) as [tr|e] eqn:Htr; [|done].
  rewrite bind_Ok.
  destruct (for_enumerate _ 0 (drop _ _) []) as [te|e] eqn:Hte; [|done].
  rewrite bind_Ok. intros [= <- <-]. split_and!; [done|by eexists|done|].
  intros idx Hin. rewrite <- (take_drop num_train_pids order) in Hin.
  apply elem_of_app in Hin as [Hin|Hin].
  - exact (for_enumerate_append_pair_inv _ _ _ _ _ _ Htr idx Hin).
  - exact (for_enumerate_append_pair_inv _ _ _ _ _ _ Hte idx Hin).
Qed.

Lemma for_range_trial_inv (num_pids num_train_pids m : nat) :
  ∀ (splits out : list Split) (g g' : G),
  for_range (trial shuffle cam_a_imgs cam_b_imgs num_pids num_train_pids) m (splits, g)
  = Ok (out, g') →
  g' = rng_at shuffle num_pids m g
  ∧ length out = length splits + m
  ∧ ∀ k, k < m →
      let order := order_at shuffle num_pids k g in
      list_to_set (take num_train_pids order) ∩ list_to_set (drop num_train_pids order)
      = (∅ : gset nat)
      ∧ ∀ idx, idx ∈ order → idx < length cam_a_imgs ∧ idx < length cam_b_imgs.
Proof.
  induction m as [|m IH]; intros splits out g g' Hrun.
  - cbn in Hrun. injection Hrun as <- <-. split_and!; [done|lia|]. intros k Hk. lia.
  - cbn [for_range] in Hrun.
    destruct (trial shuffle cam_a_imgs cam_b_imgs num_pids num_train_pids (splits, g))
      as [[out1 g1]|e] eqn:Htrial; [|done].
    rewrite bind_Ok in Hrun.
    apply trial_inv in Htrial as (-> & [split ->] & Hdisj & Hrange).
    apply IH in Hrun as (-> & Hlen & Hrest).
    split_and!.
    + unfold rng_at.
      by rewrite (Nat.iter_succ_r m (λ g, (shuffle g (arange num_pids)).2) g).
    + rewrite Hlen, length_app. cbn [length]. lia.
    + intros [|k] Hk order.
      * done.
      * subst order. unfold order_at, rng_at.
        rewrite (Nat.iter_succ_r k (λ g, (shuffle g (arange num_pids)).2) g).
        apply Hrest. lia.
Qed.

(** X16. Whatever the shuffle does, the builder returns splits only when
    the two listings have the same length and, in each of the ten trials,
    every drawn index lies within the listings and the train and test index
    sets share no index; the generator has then been advanced by exactly
    ten shuffles. *)
Theorem build_splits_returns_only_if (g g' : G) (splits : list Split) :
  build_splits shuffle cam_a_imgs cam_b_imgs g = Ok (splits, g') →
  let num_pids := length cam_a_imgs in
  length cam_a_imgs = length cam_b_imgs
  ∧ length splits = 10
  ∧ g' = rng_at shuffle num_pids 10 g
  ∧ ∀ k, k < 10 →
      let order := order_at shuffle num_pids k g in
      list_to_set (take (num_pids `div` 2) order)
      ∩ list_to_set (drop (num_pids `div` 2) order) = (∅ : gset nat)
      ∧ ∀ idx, idx ∈ order → idx < num_pids.
Proof.
  unfold build_splits. case_bool_decide as Hlen; [|done].
  cbn [py_assert]. rewrite bind_Ok. intros Hrun. cbv zeta.
  apply for_range_trial_inv in Hrun as (-> & Hten & Hall).
  split_and!; [done..|].
  intros k Hk. destruct (Hall k Hk) as [Hdisj Hrange].
  split; [done|]. intros idx Hin. by apply Hrange.
Qed.

End AnyShuffle.

(** X19. The assertion of line 138 is live: when the two halves of the
    first drawn array share an index, the builder raises [AssertionError]
    with the overlap message and returns no split. *)
Theorem build_splits_overlap_detected {G : Type} (shuffle : G → list nat → list nat * G)
    (cam_a_imgs cam_b_imgs : list string) (g : G) (idx : nat) :
  length cam_a_imgs = length cam_b_imgs →
  let order := (shuffle g (arange (length cam_a_imgs))).1 in
  idx ∈ take (length cam_a_imgs `div` 2) order →
  idx ∈ drop (length cam_a_imgs `div` 2) order →
  build_splits shuffle cam_a_imgs cam_b_imgs g
  = Raise (AssertionError (Some "Error: train and test overlap")).
Proof.
  intros Hlen order Htake Hdrop. subst order. unfold build_splits.
  rewrite bool_decide_eq_true_2 by done. cbn [py_assert]. rewrite bind_Ok.
  cbn [for_range]. unfold trial. cbn [fst snd].
  destruct (shuffle g (arange (length cam_a_imgs))) as [order g1]. cbn [fst] in *.
  rewrite bool_decide_eq_false_2; [done|].
  intros Hempty. apply (not_elem_of_empty (C := gset nat) idx).
  rewrite <- Hempty. apply elem_of_intersection.
  by rewrite !elem_of_list_to_set.
Qed.

(** ** The further properties on the samples *)

Lemma new_VIPeR_existing_dir_witness :
  dataset_dir_exists sample_incomplete = true
  ∧ new_VIPeR lcg_shuffle no_mkdir no_network no_zip "data" 0 true sample_incomplete
    = Fail (RuntimeError "'data/viper/VIPeR/cam_a' is not available").
Proof.
  split; [reflexivity|].
  apply (new_VIPeR_existing_dir lcg_shuffle no_mkdir no_network no_zip
           "data" 0 true sample_incomplete eq_refl).
  reflexivity.
Defined.


Lemma assemble_trusts_document_witness :
  assemble (JArr [JObj sample_edited_split]) 0 true
  = Ok {| self_train := [[JStr "x.bmp"; JNum 7]]; self_query := [];
          self_gallery := [[]];
          self_num_train_pids := JNum 99; self_num_query_pids := JNum (-1);
          self_num_gallery_pids := JNum 0 |}.
Proof.
  apply (assemble_trusts_document [JObj sample_edited_split] 0 sample_edited_split true
           [[JStr "x.bmp"; JNum 7]] [] [[]] 99 (-1) 0);
    first [ reflexivity | cbn; lia ].
Defined.

Lemma build_splits_sizes_witness :
  length sample_cam_a = length sample_cam_b
  ∧ ∃ splits g',
      build_splits lcg_shuffle sample_cam_a sample_cam_b 42%N = Ok (splits, g')
      ∧ length splits = 10
      ∧ ∀ k split, splits !! k = Some split →
          length (train split) = 2 * num_train_pids split
          ∧ length (query split) = 2 * num_query_pids split
          ∧ length (gallery split) = 2 * num_gallery_pids split
          ∧ num_train_pids split + num_query_pids split = 5
          ∧ num_train_pids split ≤ num_query_pids split ≤ num_train_pids split + 1.
Proof.
  split; [reflexivity|].
  exact (build_splits_sizes lcg_shuffle lcg_shuffle_perm
           sample_cam_a sample_cam_b eq_refl 42%N).
Defined.

Lemma build_splits_labels_witness :
  length sample_cam_a = length sample_cam_b
  ∧ ∃ splits g',
      build_splits lcg_shuffle sample_cam_a sample_cam_b 42%N = Ok (splits, g')
      ∧ length splits = 10
      ∧ ∀ k split, splits !! k = Some split →
          (λ r : ImageRecord, (r.1.2, r.2)) <$> train split
          = flat_map (λ pid, [(pid, 0); (pid, 1)]) (seq 0 (num_train_pids split))
          ∧ (λ r : ImageRecord, (r.1.2, r.2)) <$> query split
            = flat_map (λ pid, [(pid, 0); (pid, 1)]) (seq 0 (num_query_pids split)).
Proof.
  split; [reflexivity|].
  exact (build_splits_labels lcg_shuffle lcg_shuffle_perm
           sample_cam_a sample_cam_b eq_refl 42%N).
Defined.

Lemma build_splits_uses_every_image_witness :
  length sample_cam_a = length sample_cam_b
  ∧ ∃ splits g',
      build_splits lcg_shuffle sample_cam_a sample_cam_b 42%N = Ok (splits, g')
      ∧ length splits = 10
      ∧ ∀ k split, splits !! k = Some split →
          (λ r : ImageRecord, r.1.1) <$> (train split ++ query split)
          ≡ₚ sample_cam_a ++ sample_cam_b.
Proof.
  split; [reflexivity|].
  exact (build_splits_uses_every_image lcg_shuffle lcg_shuffle_perm
           sample_cam_a sample_cam_b eq_refl 42%N).
Defined.

Lemma sample_listings_NoDup : NoDup (sample_cam_a ++ sample_cam_b).
Proof.
  apply (bool_decide_unpack (NoDup (sample_cam_a ++ sample_cam_b))).
  vm_compute. exact I.
Qed.

Lemma build_splits_no_shared_image_witness :
  length sample_cam_a = length sample_cam_b
  ∧ NoDup (sample_cam_a ++ sample_cam_b)
  ∧ ∃ splits g',
      build_splits lcg_shuffle sample_cam_a sample_cam_b 42%N = Ok (splits, g')
      ∧ ∀ k split, splits !! k = Some split →
          NoDup ((λ r : ImageRecord, r.1.1) <$> train split)
          ∧ NoDup ((λ r : ImageRecord, r.1.1) <$> query split)
          ∧ ∀ r r', r ∈ train split → r' ∈ query split ∨ r' ∈ gallery split →
                    r.1.1 ≠ r'.1.1.
Proof.
  split; [reflexivity|]. split; [exact sample_listings_NoDup|].
  exact (build_splits_no_shared_image lcg_shuffle lcg_shuffle_perm
           sample_cam_a sample_cam_b eq_refl 42%N sample_listings_NoDup).
Defined.

(** One identity: nothing to train on. *)
Lemma build_splits_small_witness :
  length ["cam_a/000_45.bmp"] ≤ 1
  ∧ ∃ splits g',
      build_splits lcg_shuffle ["cam_a/000_45.bmp"] ["cam_b/000_45.bmp"] 42%N
      = Ok (splits, g')
      ∧ length splits = 10
      ∧ ∀ k split, splits !! k = Some split →
          train split = []
          ∧ num_train_pids split = 0
          ∧ num_query_pids split = 1
          ∧ query split
            = [("cam_a/000_45.bmp", 0, 0); ("cam_b/000_45.bmp", 0, 1)].
Proof.
  split; [cbn; lia|].
  exact (build_splits_small lcg_shuffle lcg_shuffle_perm
           ["cam_a/000_45.bmp"] ["cam_b/000_45.bmp"] eq_refl 42%N
           (le_n 1)).
Defined.

Lemma load_or_create_listing_order_witness :
  cam_a_bmps sample_world ≡ₚ cam_a_bmps sample_world_reversed
  ∧ cam_b_bmps sample_world ≡ₚ cam_b_bmps sample_world_reversed
  ∧ ∃ w1',
      load_or_create lcg_shuffle sample_world_reversed = Ok (to_json sample_splits, w1')
      ∧ split_file w1' = split_file sample_world_stored
      ∧ np_random w1' = np_random sample_world_stored.
Proof.
  assert (Ha : cam_a_bmps sample_world ≡ₚ cam_a_bmps sample_world_reversed)
    by (symmetry; apply reverse_Permutation).
  assert (Hb : cam_b_bmps sample_world ≡ₚ cam_b_bmps sample_world_reversed)
    by (symmetry; apply reverse_Permutation).
  split; [exact Ha|]. split; [exact Hb|].
  apply (load_or_create_listing_order lcg_shuffle sample_world sample_world_reversed
           Ha Hb eq_refl eq_refl eq_refl).
  vm_compute. reflexivity.
Defined.

Lemma init_reproducible_witness :
  ∃ self,
    __init__ lcg_shuffle 3 true sample_world = Ok (self, sample_world_stored)
    ∧ __init__ stuck_shuffle 3 true sample_world_stored = Ok (self, sample_world_stored).
Proof.
  destruct (__init__ lcg_shuffle 3 true sample_world) as [[self w1]|e] eqn:Hinit.
  - assert (Hw : w1 = sample_world_stored).
    { vm_compute in Hinit. injection Hinit as _ <-. vm_compute. reflexivity. }
    subst w1. exists self. split; [reflexivity|].
    exact (init_reproducible lcg_shuffle 3 true sample_world sample_world_stored self
             Hinit stuck_shuffle).
  - vm_compute in Hinit. discriminate Hinit.
Defined.

Lemma sample_machine_unpacked :
  dataset_dir_exists sample_machine = true
  ∧ cam_a_path_exists sample_machine = true
  ∧ cam_b_path_exists sample_machine = true.
Proof. by split_and!. Qed.

Lemma new_VIPeR_fresh_dataset_witness :
  (0 ≤ 4 < 10)%Z
  ∧ ∃ self m',
      new_VIPeR lcg_shuffle no_mkdir no_network no_zip "data" 4 true sample_machine
      = Done (self, m')
      ∧ self_gallery self = self_query self
      ∧ length (self_train self) = 4
      ∧ length (self_query self) = 6
      ∧ self_num_train_pids self = JNum 2
      ∧ self_num_query_pids self = JNum 3
      ∧ self_num_gallery_pids self = JNum 3.
Proof.
  assert (Hid : (0 ≤ 4 < 10)%Z) by lia.
  split; [exact Hid|].
  destruct (new_VIPeR_fresh_dataset lcg_shuffle lcg_shuffle_perm no_mkdir no_network no_zip
              sample_machine sample_machine_unpacked eq_refl eq_refl "data" 4 true Hid)
    as (self & m' & Hnew & _ & Hgal & Hl1 & Hl2 & _ & Hnt & Hnq & Hng).
  exists self, m'. repeat split; assumption.
Defined.

Lemma new_VIPeR_fresh_out_of_range_witness :
  new_VIPeR lcg_shuffle no_mkdir no_network no_zip "data" 10 true sample_machine
  = Fail (Exn (ValueError
                 "split_id exceeds range, received 10, but expected between 0 and 9"))
  ∧ new_VIPeR lcg_shuffle no_mkdir no_network no_zip "data" (-11) true sample_machine
    = Fail (Exn IndexError).
Proof.
  split.
  - apply (new_VIPeR_fresh_out_of_range lcg_shuffle lcg_shuffle_perm no_mkdir no_network
             no_zip sample_machine sample_machine_unpacked eq_refl eq_refl "data" 10 true).
    lia.
  - apply (new_VIPeR_fresh_out_of_range lcg_shuffle lcg_shuffle_perm no_mkdir no_network
             no_zip sample_machine sample_machine_unpacked eq_refl eq_refl "data" (-11) true).
    lia.
Defined.

Lemma build_splits_returns_only_if_witness :
  build_splits lcg_shuffle sample_cam_a sample_cam_b 42%N
  = Ok (sample_splits, 529748450%N)
  ∧ length sample_splits = 10
  ∧ ∀ k, k < 10 →
      list_to_set (take 2 (order_at lcg_shuffle 5 k 42%N))
      ∩ list_to_set (drop 2 (order_at lcg_shuffle 5 k 42%N)) = (∅ : gset nat)
      ∧ ∀ idx, idx ∈ order_at lcg_shuffle 5 k 42%N → idx < 5.
Proof.
  assert (Hrun : build_splits lcg_shuffle sample_cam_a sample_cam_b 42%N
                 = Ok (sample_splits, 529748450%N)) by (vm_compute; reflexivity).
  split; [exact Hrun|].
  destruct (build_splits_returns_only_if lcg_shuffle sample_cam_a sample_cam_b
              42%N 529748450%N sample_splits Hrun) as (_ & Hten & _ & Hall).
  split; [exact Hten|exact Hall].
Defined.

(** The stuck shuffle on the sample: index 0 lands in both halves. *)
Lemma build_splits_overlap_detected_witness :
  length sample_cam_a = length sample_cam_b
  ∧ build_splits stuck_shuffle sample_cam_a sample_cam_b 42%N
    = Raise (AssertionError (Some "Error: train and test overlap")).
Proof.
  split; [reflexivity|].
  apply (build_splits_overlap_detected stuck_shuffle sample_cam_a sample_cam_b 42%N 0
           eq_refl).
  - apply (bool_decide_unpack (0 ∈ _)). vm_compute. exact I.
  - apply (bool_decide_unpack (0 ∈ _)). vm_compute. exact I.
Defined.
